(** * stagit-highlight: the page rewriter and the directory walker

    A shallow embedding of [stagit-highlight.py].  The script walks a
    directory of pages written by stagit(1) and, for every page whose
    original file name has a Pygments lexer, rewrites the page in place in
    two passes over its lines.

    A [string] holds the UTF-8 bytes of a Python string, and a file is
    the string of its bytes.  The lines the script iterates over are
    obtained from it with [readlines], which reads in text mode: every
    line end is read as a line feed.  What the script prints while it
    iterates becomes the new content of the file.  The three library calls
    the script delegates to (lexer lookup, highlighting, [html.unescape])
    are parameters of the development.

    The script is taken to run on a POSIX system whose locale encoding is
    UTF-8: a line feed is written as it is, paths are joined with a
    slash, and the in-place loops decode a page as the first [open] does.

    The file system is a tree: a directory is the list of its entries in
    the order [os.listdir] returns them, and a file is what the first
    [open] and [readlines] of it meet, together with whether the in-place
    loops can replace it.  An in-place loop keeps the page under its name
    followed by [.bak] while it runs; that name is taken to be free, so
    that a call of [highlight_file] changes the page it is called on and
    nothing else.  Uncaught exceptions are results of their own, next to
    the returned status.  The calls of the two functions and the lines
    written to standard error are recorded in the order in which they
    happen. *)

From Stdlib Require Import String Ascii List Arith Lia Bool ZArith.
Import ListNotations.
Open Scope string_scope.
Set Warnings "-register-all".

(* ================================================================= *)
(** ** Characters and string constants *)

(** The line feed, Python's ["\n"]. *)
Definition LF : ascii := ascii_of_nat 10.

(** The carriage return, Python's ["\r"]. *)
Definition CR : ascii := ascii_of_nat 13.

(** The double quote character, as a one-character string. *)
Definition DQ : string := String (ascii_of_nat 34) EmptyString.

Definition NL : string := String LF EmptyString.

Fixpoint contains (c : ascii) (s : string) : bool :=
  match s with
  | EmptyString => false
  | String x s' => Ascii.eqb x c || contains c s'
  end.

Definition is_digit (c : ascii) : bool :=
  let n := nat_of_ascii c in Nat.leb 48 n && Nat.leb n 57.

(** A string holds the UTF-8 bytes of a text.  A character of the text is
    one byte that is no continuation byte, followed by the continuation
    bytes that belong to it. *)
Definition is_continuation (c : ascii) : bool :=
  let n := nat_of_ascii c in Nat.leb 128 n && Nat.ltb n 192.

Fixpoint skip_continuation (s : string) : string :=
  match s with
  | EmptyString => EmptyString
  | String c s' => if is_continuation c then skip_continuation s' else s
  end.

(* ================================================================= *)
(** ** The [str] methods the script uses *)

(** [strip_prefix p s] is [Some r] exactly when [s = p ++ r]. *)
Fixpoint strip_prefix (p s : string) : option string :=
  match p with
  | EmptyString => Some s
  | String a p' =>
      match s with
      | EmptyString => None
      | String b s' => if Ascii.eqb a b then strip_prefix p' s' else None
      end
  end.

(** [strip_suffix suf s] is [Some b] exactly when [s = b ++ suf]. *)
Fixpoint strip_suffix (suf s : string) : option string :=
  if String.eqb s suf then Some EmptyString
  else match s with
       | EmptyString => None
       | String c s' =>
           match strip_suffix suf s' with
           | Some b => Some (String c b)
           | None => None
           end
       end.

Definition startswith (s p : string) : bool :=
  match strip_prefix p s with Some _ => true | None => false end.

Definition endswith (s suf : string) : bool :=
  match strip_suffix suf s with Some _ => true | None => false end.

(** [str.removeprefix] and [str.removesuffix]. *)
Definition removeprefix (s p : string) : string :=
  match strip_prefix p s with Some r => r | None => s end.

Definition removesuffix (s suf : string) : string :=
  match strip_suffix suf s with Some b => b | None => s end.

(** [str.replace old new] for a non-empty [old]: the occurrences of [old]
    are found from left to right and do not overlap.  [skip] counts the
    characters of an occurrence that are still to be dropped. *)
Fixpoint replace_from (old new : string) (skip : nat) (s : string) : string :=
  match s with
  | EmptyString => EmptyString
  | String c s' =>
      match skip with
      | S k => replace_from old new k s'
      | O =>
          if startswith s old
          then new ++ replace_from old new (String.length old - 1) s'
          else String c (replace_from old new 0 s')
      end
  end.

Definition replace (s old new : string) : string := replace_from old new 0 s.

(** [str.split] at line feeds: always at least one piece. *)
Fixpoint split_nl (s : string) : list string :=
  match s with
  | EmptyString => [EmptyString]
  | String c s' =>
      if Ascii.eqb c LF then EmptyString :: split_nl s'
      else match split_nl s' with
           | h :: t => String c h :: t
           | [] => [String c EmptyString]
           end
  end.

(** Reading in text mode: a carriage return followed by a line feed, and
    a carriage return alone, are read as a line feed. *)
Fixpoint universal_newlines (s : string) : string :=
  match s with
  | EmptyString => EmptyString
  | String c s' =>
      if Ascii.eqb c CR then
        String LF
          match s' with
          | String c' s'' =>
              if Ascii.eqb c' LF then universal_newlines s'' else universal_newlines s'
          | EmptyString => EmptyString
          end
      else String c (universal_newlines s')
  end.

(** A text cut after each line feed: each line keeps its line feed, and
    only the last one may lack it. *)
Fixpoint split_lines (s : string) : list string :=
  match s with
  | EmptyString => []
  | String c s' =>
      if Ascii.eqb c LF then String c EmptyString :: split_lines s'
      else match split_lines s' with
           | h :: t => String c h :: t
           | [] => [String c EmptyString]
           end
  end.

(** The lines of a file as iteration over it yields them: the file is
    read in text mode and cut after each line feed. *)
Definition readlines (s : string) : list string :=
  split_lines (universal_newlines s).

(** What a sequence of [print(..., end=...)] calls leaves in the file. *)
Definition written (pieces : list string) : string :=
  fold_right String.append EmptyString pieces.

(* ================================================================= *)
(** ** Regular expressions, as [re.match] reads them *)

(** The fragment of the [re] syntax the four patterns of the script are
    written in. *)
Inductive regex : Type :=
| Lit (s : string)            (* a run of ordinary characters *)
| Dot                         (* any character except a line feed *)
| Digit                       (* the class 0-9 *)
| Seq (r1 r2 : regex)
| Star (r : regex)            (* greedy repetition *)
| Group (n : nat) (r : regex) (* the n-th capturing group *)
| Dollar.                     (* end of string, or before a final line feed *)

Definition Plus (r : regex) : regex := Seq r (Star r).

Declare Scope regex_scope.
Delimit Scope regex_scope with re.
Bind Scope regex_scope with regex.
Notation "r1 ;; r2" := (Seq r1 r2) (at level 61, right associativity) : regex_scope.

(** The groups captured so far; a group that matches again overwrites
    what it held. *)
Definition captures := list (nat * string).

Fixpoint set_group (n : nat) (v : string) (gs : captures) : captures :=
  match gs with
  | [] => [(n, v)]
  | (m, w) :: gs' => if Nat.eqb m n then (n, v) :: gs' else (m, w) :: set_group n v gs'
  end.

Fixpoint get_group (n : nat) (gs : captures) : option string :=
  match gs with
  | [] => None
  | (m, w) :: gs' => if Nat.eqb m n then Some w else get_group n gs'
  end.

(** The part of [s] that was read when [s'] is what remains of it. *)
Definition consumed (s s' : string) : string :=
  substring 0 (String.length s - String.length s') s.

(** The rounds of a greedy repetition whose body is matched by [step]:
    another round is tried first, and only when nothing follows from it is
    the rest of the pattern tried where the repetition stands.  A round
    must read something. *)
Fixpoint star_rounds {A : Type}
    (step : string -> captures -> (string -> captures -> option A) -> option A)
    (k : string -> captures -> option A)
    (fuel : nat) (s : string) (gs : captures) : option A :=
  match fuel with
  | O => k s gs
  | S fuel' =>
      match step s gs
              (fun s' gs' =>
                 if Nat.ltb (String.length s') (String.length s)
                 then star_rounds step k fuel' s' gs' else None) with
      | Some a => Some a
      | None => k s gs
      end
  end.

(** Backtracking matcher in continuation-passing style: alternatives are
    tried in the order the [re] module tries them, and [k] receives what
    remains of the string and the groups captured so far. *)
Fixpoint rmatch {A : Type} (r : regex) (s : string) (gs : captures)
    (k : string -> captures -> option A) {struct r} : option A :=
  match r with
  | Lit l =>
      match strip_prefix l s with
      | Some s' => k s' gs
      | None => None
      end
  | Dot =>
      match s with
      | String c s' => if Ascii.eqb c LF then None else k (skip_continuation s') gs
      | EmptyString => None
      end
  | Digit =>
      match s with
      | String c s' => if is_digit c then k s' gs else None
      | EmptyString => None
      end
  | Seq r1 r2 => rmatch r1 s gs (fun s' gs' => rmatch r2 s' gs' k)
  | Star r1 => star_rounds (rmatch r1) k (String.length s) s gs
  | Group n r1 =>
      rmatch r1 s gs (fun s' gs' => k s' (set_group n (consumed s s') gs'))
  | Dollar =>
      if String.eqb s EmptyString || String.eqb s NL then k s gs else None
  end.

(** [re.match(r, s)]: the pattern must match at the start of [s]; the
    result is the match object, here the captured groups. *)
Definition re_match (r : regex) (s : string) : option captures :=
  rmatch r s [] (fun _ gs => Some gs).

(** [m.group(n)] for a group that took part in the match. *)
Definition group (m : captures) (n : nat) : string :=
  match get_group n m with Some v => v | None => EmptyString end.

Definition ok {A : Type} (o : option A) : bool :=
  match o with Some _ => true | None => false end.

(** The truth value of [re.match(r, s)]. *)
Definition matches (r : regex) (s : string) : bool := ok (re_match r s).

(* ================================================================= *)
(** ** The four patterns of [highlight_file] *)

(** The head of a numbered-line anchor, up to and including the blank
    after the closing tag. *)
Definition anchor_head : regex :=
  (Lit ("<a href=" ++ DQ ++ "#l") ;; Plus Digit ;;
   Lit (DQ ++ " class=" ++ DQ ++ "line" ++ DQ ++ " id=" ++ DQ ++ "l") ;; Plus Digit ;;
   Lit (DQ ++ ">") ;; Star (Lit " ") ;; Plus Digit ;; Lit "</a> ")%re.

(** Pass 1: the anchor followed by the captured rest of the line. *)
Definition anchor_code_re : regex := (anchor_head ;; Group 1 (Star Dot))%re.

(** Pass 2: the anchor itself is the captured group. *)
Definition anchor_prefix_re : regex := Group 1 anchor_head.

(** The stylesheet link.  The dot of the file name is a pattern dot. *)
Definition stylesheet_re : regex :=
  (Lit ("<link rel=" ++ DQ ++ "stylesheet" ++ DQ ++ " type=" ++ DQ ++ "text/css"
        ++ DQ ++ " href=" ++ DQ) ;;
   Star (Group 1 (Dot ;; Dot ;; Lit "/")) ;;
   Lit "style" ;; Dot ;; Lit "css" ;; Lit (DQ ++ "/>") ;; Dollar)%re.

(** The paragraph with the link to the raw file, which ends by opening
    the listing. *)
Definition rawlink_re : regex :=
  (Lit "<p> " ;; Star Dot ;; Lit (" <a href=" ++ DQ) ;;
   Star (Group 1 (Dot ;; Dot ;; Lit "/")) ;; Lit "raw/" ;; Star Dot ;;
   Lit (DQ ++ ">raw</a></p><hr/><pre id=blob" ++ DQ ++ ">") ;; Dollar)%re.

Definition content_open : string := "<div id=" ++ DQ ++ "content" ++ DQ ++ ">" ++ NL.
Definition div_close : string := "</div>" ++ NL.
Definition highlight_open : string :=
  "<hr/><div class=" ++ DQ ++ "highlight" ++ DQ ++ ">".
Definition highlight_pre : string :=
  "<div class=" ++ DQ ++ "highlight" ++ DQ ++ "><pre>".

(* ================================================================= *)
(** ** Status codes, errors and the state of a page *)

Definition SUCCESS : Z := 0%Z.
Definition FAILURE : Z := 1%Z.

(** The exceptions that leave [highlight_file] and [traverse_repository]
    uncaught. *)
Inductive exn : Type :=
| IndexError            (* [codelines[j]] out of range *)
| UnicodeDecodeError    (* the first read meets bytes that are not UTF-8 *)
| NotADirectoryError    (* [os.listdir] of something that is no directory *)
| OSError.              (* [os.rename] refused when the in-place loop starts *)

(** A call either returns a status or raises. *)
Inductive outcome : Type :=
| Ret (status : Z)
| Raise (e : exn).

(** What the first [open] and [readlines] of a page meet, and whether the
    in-place loops can replace the page.  [Readable data] is a page that
    holds the UTF-8 text [data] and can be replaced in its directory. *)
Inductive content : Type :=
| Readable (data : string)       (* read, and replaced in place *)
| Unreadable                     (* [open] raises an [IOError] *)
| Undecodable                    (* [readlines] raises a [UnicodeDecodeError] *)
| Unreplaceable (data : string). (* read, but [os.rename] raises an [OSError] *)

(** A line on the standard error stream. *)
Inductive diag : Type :=
| FailedToOpen (pathname : string)
| UsageLine
| NotADirectoryLine (pathname : string).

(* ================================================================= *)
(** ** Pass 1: collect the code, adjust the markup *)

Record p1state : Type := mk_p1 { code : string; in_content : bool }.

Definition p1_init : p1state := mk_p1 EmptyString false.

(** The code buffer after the first statement of the loop body. *)
Definition collect (code : string) (line : string) : string :=
  match re_match anchor_code_re line with
  | Some m => code ++ group m 1 ++ NL
  | None => code
  end.

(** One round of the first loop: what is printed for [line], and the
    state after it. *)
Definition pass1_line (st : p1state) (line : string) : string * p1state :=
  let code' := collect (code st) line in
  if matches stylesheet_re line then
    (line ++ replace line "style.css" "syntax.css", mk_p1 code' (in_content st))
  else if String.eqb line content_open then
    (line, mk_p1 code' true)
  else if negb (in_content st) then
    (line, mk_p1 code' (in_content st))
  else if String.eqb line div_close then
    (line ++ "</div>", mk_p1 code' (in_content st))
  else if matches rawlink_re line then
    (replace line "<hr/>" highlight_open, mk_p1 code' (in_content st))
  else
    (line, mk_p1 code' (in_content st)).

Fixpoint pass1 (st : p1state) (lines : list string) : list string * p1state :=
  match lines with
  | [] => ([], st)
  | line :: rest =>
      let (piece, st') := pass1_line st line in
      let (pieces, st'') := pass1 st' rest in
      (piece :: pieces, st'')
  end.

(* ================================================================= *)
(** ** Pass 2: put the highlighted lines back *)

(** The second loop, from cursor [j]: what is printed for each line read,
    the cursor at the end, and the exception that stopped the loop, if
    one did. *)
Fixpoint pass2 (codelines lines : list string) (j : nat)
  : list string * nat * option exn :=
  match lines with
  | [] => ([], j, None)
  | line :: rest =>
      match re_match anchor_prefix_re line with
      | Some m =>
          match nth_error codelines j with
          | Some h =>
              let '(pieces, j', e) := pass2 codelines rest (j + 1) in
              ((group m 1 ++ h ++ NL) :: pieces, j', e)
          | None => ([], j, Some IndexError)
          end
      | None =>
          let '(pieces, j', e) := pass2 codelines rest j in
          (line :: pieces, j', e)
      end
  end.

(* ================================================================= *)
(** ** [highlight_file] *)

Section Rewriter.

(** The Pygments lexers, [pygments.lexers.get_lexer_for_filename]
    ([None] for [ClassNotFound]), [pygments.highlight] with the HTML
    formatter, and [html.unescape]. *)
Variable Lexer : Type.
Variable get_lexer_for_filename : string -> option Lexer.
Variable highlight : string -> Lexer -> string.
Variable unescape : string -> string.

(** The highlighted code as an array of lines. *)
Definition codelines_of (code : string) (lexer : Lexer) : list string :=
  split_nl (removeprefix (highlight (unescape code) lexer) highlight_pre).

(** The two loops over a page that could be read.  When the second loop
    raises, the page holds what had been printed until then. *)
Definition rewrite_page (lexer : Lexer) (data : string) : outcome * string :=
  let (pieces1, st) := pass1 p1_init (readlines data) in
  let codelines := codelines_of (code st) lexer in
  let '(pieces2, _, e) := pass2 codelines (readlines (written pieces1)) 0 in
  match e with
  | None => (Ret SUCCESS, written pieces2)
  | Some x => (Raise x, written pieces2)
  end.

(** The result, the page afterwards, and what went to standard error.
    The first [open] is inside the [try]; its [readlines], and the
    [os.rename] with which the first in-place loop starts, are not, so
    what they raise leaves the function.  The in-place loops remove what
    stands under the name of the page followed by [.bak]; no other entry
    is taken to have that name. *)
Definition highlight_file (pathname : string) (c : content)
  : outcome * content * list diag :=
  match get_lexer_for_filename (removesuffix pathname ".html") with
  | None => (Ret SUCCESS, c, [])
  | Some lexer =>
      match c with
      | Unreadable => (Ret FAILURE, c, [FailedToOpen pathname])
      | Undecodable => (Raise UnicodeDecodeError, c, [])
      | Unreplaceable _ => (Raise OSError, c, [])
      | Readable data =>
          let (o, data') := rewrite_page lexer data in
          (o, Readable data', [])
      end
  end.

End Rewriter.

(* ================================================================= *)
(** ** The directory tree and [traverse_repository] *)

(** A directory lists its entries in the order [os.listdir] returns them. *)
Inductive node : Type :=
| File (c : content)
| Dir (entries : list (string * node)).

(** What a run does besides returning: the calls of the two functions, in
    order, and the lines written to standard error. *)
Inductive event : Type :=
| Walk (pathname : string)    (* [traverse_repository] is entered *)
| Call (pathname : string)    (* [highlight_file] is called *)
| Stderr (d : diag).

(** [os.path.join] of a directory and one more component. *)
Definition join (a b : string) : string :=
  if startswith b "/" then b
  else if String.eqb a EmptyString || endswith a "/" then a ++ b
  else a ++ "/" ++ b.

Fixpoint lookup (name : string) (entries : list (string * node)) : option node :=
  match entries with
  | [] => None
  | (n, x) :: rest => if String.eqb n name then Some x else lookup name rest
  end.

(** Whether [name], resolved in a directory with these entries, is a
    directory: the empty name and the dot names are the directory itself
    and its parent. *)
Definition names_directory (entries : list (string * node)) (name : string) : bool :=
  if String.eqb name EmptyString || String.eqb name "." || String.eqb name ".." then true
  else match lookup name entries with
       | Some (Dir _) => true
       | _ => false
       end.

(** [os.path.isdir] of a path, as seen while the directory [pathname],
    whose entries are [entries], is being walked: the path must lie
    directly in that directory. *)
Definition isdir (pathname : string) (entries : list (string * node)) (p : string) : bool :=
  match strip_prefix (join pathname EmptyString) p with
  | Some name => names_directory entries name
  | None => false
  end.

Definition result : Type := outcome * list (string * node) * list event.

Section Walker.

Variable Lexer : Type.
Variable get_lexer_for_filename : string -> option Lexer.
Variable highlight : string -> Lexer -> string.
Variable unescape : string -> string.

Section Loop.

Variable pathname : string.
Variable listing : list (string * node).
Variable recurse : string -> node -> outcome * node * list event.

(** The loop over the listing, from the entries that [rest] still
    holds, with [retval] as it stands. *)
Fixpoint loop (retval : Z) (rest : list (string * node)) : result :=
  match rest with
  | [] => (Ret retval, [], [])
  | (i, n) :: rest' =>
      let newpath := join pathname i in
      match n with
      | Dir _ =>
          match recurse newpath n with
          | (Ret r, n', ev) =>
              let '(o, rest'', ev') := loop r rest' in
              (o, (i, n') :: rest'', (ev ++ ev')%list)
          | (Raise e, n', ev) => (Raise e, (i, n') :: rest', ev)
          end
      | File c =>
          if negb (isdir pathname listing (removesuffix newpath ".html")) then
            match highlight_file Lexer get_lexer_for_filename highlight unescape newpath c with
            | (Ret r, c', ds) =>
                let '(o, rest'', ev') := loop r rest' in
                (o, (i, File c') :: rest'', Call newpath :: (map Stderr ds ++ ev')%list)
            | (Raise e, c', ds) =>
                (Raise e, (i, File c') :: rest', Call newpath :: map Stderr ds)
            end
          else
            let '(o, rest'', ev') := loop retval rest' in
            (o, (i, n) :: rest'', ev')
      end
  end.

End Loop.

Fixpoint traverse_repository (pathname : string) (d : node) {struct d}
  : outcome * node * list event :=
  match d with
  | File _ => (Raise NotADirectoryError, d, [])
  | Dir entries =>
      let '(o, entries', ev) :=
        loop pathname entries traverse_repository SUCCESS entries in
      (o, Dir entries', Walk pathname :: ev)
  end.

(** [main]: [argv] is the argument vector and [root] what its second
    element names in the file system, if anything. *)
Definition main (argv : list string) (root : option node)
  : outcome * option node * list event :=
  match argv with
  | [_; dir] =>
      match root with
      | Some (Dir entries) =>
          let '(o, d', ev) := traverse_repository dir (Dir entries) in
          (o, Some d', ev)
      | _ => (Ret FAILURE, root, [Stderr (NotADirectoryLine dir)])
      end
  | _ => (Ret FAILURE, root, [Stderr UsageLine])
  end.

End Walker.

(* ================================================================= *)
(** ** Counting anchors *)

(** The lines the first loop takes code from, and the lines the second
    loop replaces. *)
Definition code_anchors (lines : list string) : nat :=
  List.length (filter (matches anchor_code_re) lines).

Definition prefix_anchors (lines : list string) : nat :=
  List.length (filter (matches anchor_prefix_re) lines).

(** No anchor line comes directly after a line that is exactly the closing
    tag of a division and is read once the content division was opened
    ([inc] tells whether it was opened before [lines]). *)
Fixpoint merge_free (inc : bool) (lines : list string) : bool :=
  match lines with
  | [] => true
  | l :: rest =>
      (if inc && String.eqb l div_close
       then match rest with
            | l2 :: _ => negb (matches anchor_prefix_re l2)
            | [] => true
            end
       else true)
      && merge_free (inc || String.eqb l content_open) rest
  end.

(* ================================================================= *)
(** ** The shape of lines *)

(** The first two characters of a string. *)
Definition head2 (s : string) : string := substring 0 2 s.

(** A line with its line feed, and a last line without one. *)
Definition complete (l : string) : Prop :=
  exists b, l = b ++ NL /\ contains LF b = false.

Definition partial (l : string) : Prop :=
  l <> EmptyString /\ contains LF l = false.

(** What iteration over a file yields. *)
Inductive lines_ok : list string -> Prop :=
| lines_nil : lines_ok []
| lines_last l : partial l -> lines_ok [l]
| lines_cons l rest : complete l -> lines_ok rest -> lines_ok (l :: rest).

(** What the first loop may have left unfinished on the current line of
    its output: nothing, or the second closing tag. *)
Definition pending (f : string) : Prop := f = EmptyString \/ f = "</div>".

(* ================================================================= *)
(** ** Well-formed listings *)

(** A name [os.listdir] can return: not empty and without a slash. *)
Definition valid_name (s : string) : bool :=
  negb (String.eqb s EmptyString) && negb (contains "/"%char s).

Fixpoint valid_node (d : node) : bool :=
  match d with
  | File _ => true
  | Dir entries =>
      (fix all (es : list (string * node)) : bool :=
         match es with
         | [] => true
         | (i, n) :: es' => valid_name i && valid_node n && all es'
         end) entries
  end.

Definition valid_entries (entries : list (string * node)) : bool :=
  valid_node (Dir entries).

(* ================================================================= *)
(** ** Sample collaborators and pages *)

(** Stand-ins for the three library calls, to run the model on concrete
    pages: a lexer for C files only, a formatter that marks nothing up
    (it only wraps the code as the HTML formatter does), and a decoder
    of the references stagit writes for the markup characters. *)
Module Sample.

Definition get_lexer (name : string) : option unit :=
  if endswith name ".c" then Some tt else None.

Definition highlight (code : string) (_ : unit) : string :=
  highlight_pre ++ "<span></span>" ++ code ++ "</pre></div>" ++ NL.

Definition unescape (s : string) : string :=
  replace (replace (replace s "&lt;" "<") "&gt;" ">") "&amp;" "&".

Definition highlight_file := highlight_file unit get_lexer highlight unescape.
Definition traverse_repository := traverse_repository unit get_lexer highlight unescape.
Definition main := main unit get_lexer highlight unescape.

End Sample.

(** A numbered-line anchor as stagit writes it, and a whole numbered line. *)
Definition anchor (n : string) : string :=
  "<a href=" ++ DQ ++ "#l" ++ n ++ DQ ++ " class=" ++ DQ ++ "line" ++ DQ
  ++ " id=" ++ DQ ++ "l" ++ n ++ DQ ++ ">      " ++ n ++ "</a> ".

Definition anchor_line (n rest : string) : string := anchor n ++ rest ++ NL.

Definition css_line (name : string) : string :=
  "<link rel=" ++ DQ ++ "stylesheet" ++ DQ ++ " type=" ++ DQ ++ "text/css" ++ DQ
  ++ " href=" ++ DQ ++ "../" ++ name ++ DQ ++ "/>" ++ NL.

Definition raw_line (mid : string) : string :=
  "<p> x.c (22B) <a href=" ++ DQ ++ "../raw/x.c" ++ DQ ++ ">raw</a></p><hr/>" ++ mid
  ++ "<pre id=blob" ++ DQ ++ ">" ++ NL.

(** The minimal page: stylesheet, content opener, raw link, two numbered
    lines, content close. *)
Definition fixture_page : string :=
  css_line "style.css" ++ content_open ++ raw_line EmptyString
  ++ anchor_line "1" "int x = 1;" ++ anchor_line "2" "int x = 2;" ++ div_close.

Definition fixture_code : string := "int x = 1;" ++ NL ++ "int x = 2;" ++ NL.

(** The page expected after both passes, for highlighted lines [h1], [h2]. *)
Definition fixture_result (h1 h2 : string) : string :=
  css_line "style.css" ++ css_line "syntax.css" ++ content_open
  ++ raw_line ("<div class=" ++ DQ ++ "highlight" ++ DQ ++ ">")
  ++ anchor_line "1" h1 ++ anchor_line "2" h2 ++ div_close ++ "</div>".

(** A page whose only numbered line holds an escaped less-than sign. *)
Definition escaped_line : string := anchor_line "1" "&lt;".

(** A page where a numbered line comes right after the closing tag. *)
Definition merged_page : string :=
  content_open ++ div_close ++ anchor_line "1" "x".

(** The same page with a carriage return before each line feed. *)
Definition merged_page_crlf : string :=
  "<div id=" ++ DQ ++ "content" ++ DQ ++ ">" ++ String CR NL
  ++ "</div>" ++ String CR NL ++ anchor "1" ++ "x" ++ String CR NL.

(** A page of two numbered lines and nothing else. *)
Definition two_lines_page : string := anchor_line "1" "a" ++ anchor_line "2" "b".

(** Sample listings and trees.  In the first the page that cannot be
    opened is listed before one that can; in the second a page that is not
    UTF-8 is listed before another page; the third has a directory, its
    index page and a page named by the suffix alone; the fourth a
    directory, its index page and an ordinary page. *)
Definition listing_masked : list (string * node) :=
  [("a.c.html", File Unreadable); ("b.c.html", File (Readable EmptyString))].

Definition listing_undecodable : list (string * node) :=
  [("X", Dir []); ("X.html", File (Readable EmptyString));
   ("a.c.html", File Undecodable); ("b.c.html", File (Readable EmptyString))].

Definition listing_suffix_only : list (string * node) :=
  [("X", Dir []); ("X.html", File (Readable EmptyString));
   (".html", File (Readable EmptyString))].

Definition listing_index : list (string * node) :=
  [("X", Dir [("y.c.html", File (Readable EmptyString))]);
   ("X.html", File (Readable EmptyString));
   ("z.c.html", File (Readable EmptyString))].

Definition tree_masked : node := Dir listing_masked.
Definition tree_undecodable : node := Dir listing_undecodable.
Definition tree_suffix_only : node := Dir listing_suffix_only.
Definition tree_index : node := Dir listing_index.

(* ================================================================= *)
(** ** What a walk can change *)


(** No name in the tree ends in [.bak].  While an in-place loop runs over
    a page, the page stands under its own name followed by [.bak]; the
    loop removes what has that name before it starts, and its own backup
    when it ends.  In a tree without such names the loops only ever
    remove their own backups. *)
Fixpoint no_backup (d : node) : bool :=
  match d with
  | File _ => true
  | Dir entries =>
      (fix all (es : list (string * node)) : bool :=
         match es with
         | [] => true
         | (i, n) :: es' => negb (endswith i ".bak") && no_backup n && all es'
         end) entries
  end.

(** The code of the numbered lines of a listing, in order: what the
    anchor pattern of the first loop captures in each line it matches. *)
Fixpoint collected (lines : list string) : list string :=
  match lines with
  | [] => []
  | l :: rest =>
      match re_match anchor_code_re l with
      | Some m => group m 1 :: collected rest
      | None => collected rest
      end
  end.

(** Each piece followed by a line feed. *)
Definition terminated (pieces : list string) : list string :=
  map (fun g => g ++ NL) pieces.

(* ================================================================= *)
(** ** Pages and walks that change little *)


(** Only calls are recorded: nothing went to standard error. *)
Definition silent (ev : list event) : bool :=
  forallb (fun e => match e with Stderr _ => false | _ => true end) ev.

(** A lexer lookup that knows no file name, and a highlighter that
    returns nothing. *)
Definition no_lexer (name : string) : option unit := None.


(** A status that is [SUCCESS], or [FAILURE] with a call in the record
    whose failure to open was reported. *)
Definition accounted (r : Z) (ev : list event) : Prop :=
  r = SUCCESS \/
  (r = FAILURE /\ exists p, In (Call p) ev /\ In (Stderr (FailedToOpen p)) ev).

(** A tree in which the page that cannot be opened is listed last. *)
Definition tree_reported : node :=
  Dir [("b.c.html", File (Readable EmptyString)); ("a.c.html", File Unreadable)].

(** A directory that holds the minimal page. *)
Definition listing_page : list (string * node) :=
  [("x.c.html", File (Readable fixture_page))].

(* ================================================================= *)
(** * Properties *)

(** ** Strings *)

Lemma sapp_assoc (a b c : string) : (a ++ b) ++ c = a ++ (b ++ c).
Proof. induction a as [|x a IH]; simpl; [reflexivity | now rewrite IH]. Qed.

Lemma sapp_nil_r (a : string) : a ++ EmptyString = a.
Proof. induction a as [|x a IH]; simpl; [reflexivity | now rewrite IH]. Qed.

Lemma slength_app (a b : string) :
  String.length (a ++ b) = String.length a + String.length b.
Proof. induction a as [|x a IH]; simpl; [reflexivity | now rewrite IH]. Qed.

Lemma sapp_inv_head (a b c : string) : a ++ b = a ++ c -> b = c.
Proof.
  induction a as [|x a IH]; simpl; intros H; [assumption|].
  injection H as H. now apply IH.
Qed.

Lemma strip_prefix_app (p r : string) : strip_prefix p (p ++ r) = Some r.
Proof.
  induction p as [|a p IH]; simpl; [reflexivity|].
  now rewrite Ascii.eqb_refl.
Qed.

Lemma strip_prefix_some (p s r : string) : strip_prefix p s = Some r -> s = p ++ r.
Proof.
  revert s; induction p as [|a p IH]; simpl; intros s H.
  - now injection H as ->.
  - destruct s as [|b s]; [discriminate|].
    destruct (Ascii.eqb_spec a b) as [->|]; [|discriminate].
    simpl. f_equal. now apply IH.
Qed.

Lemma strip_suffix_eq (suf s : string) :
  strip_suffix suf s =
  if String.eqb s suf then Some EmptyString
  else match s with
       | EmptyString => None
       | String c s' =>
           match strip_suffix suf s' with
           | Some b => Some (String c b)
           | None => None
           end
       end.
Proof. destruct s; reflexivity. Qed.

Lemma strip_suffix_app (b suf : string) : strip_suffix suf (b ++ suf) = Some b.
Proof.
  induction b as [|c b IH]; rewrite strip_suffix_eq.
  - simpl. now rewrite String.eqb_refl.
  - destruct (String.eqb_spec (String c b ++ suf) suf) as [E|_].
    + apply (f_equal String.length) in E. rewrite slength_app in E. simpl in E. lia.
    + simpl. now rewrite IH.
Qed.

Lemma strip_suffix_some (suf s b : string) : strip_suffix suf s = Some b -> s = b ++ suf.
Proof.
  revert b; induction s as [|c s IH]; intros b; rewrite strip_suffix_eq.
  - destruct (String.eqb_spec EmptyString suf) as [<-|_]; [|discriminate].
    now intros [= <-].
  - destruct (String.eqb_spec (String c s) suf) as [<-|_].
    + now intros [= <-].
    + destruct (strip_suffix suf s) as [b'|] eqn:E; [|discriminate].
      intros [= <-]. simpl. f_equal. now apply IH.
Qed.

Lemma removesuffix_app (b suf : string) : removesuffix (b ++ suf) suf = b.
Proof. unfold removesuffix. now rewrite strip_suffix_app. Qed.

Lemma startswith_app (p r : string) : startswith (p ++ r) p = true.
Proof. unfold startswith. now rewrite strip_prefix_app. Qed.

Lemma is_continuation_not_line_feed (c : ascii) :
  is_continuation c = true -> Ascii.eqb c LF = false.
Proof.
  intros H. destruct (Ascii.eqb_spec c LF) as [->|_]; [discriminate H | reflexivity].
Qed.

Lemma skip_continuation_split (s : string) :
  exists d, s = d ++ skip_continuation s /\ contains LF d = false.
Proof.
  induction s as [|c s (d & Hd & Hl)]; [now exists EmptyString|]. cbn [skip_continuation].
  destruct (is_continuation c) eqn:E; [|now exists EmptyString].
  exists (String c d). split; [simpl; now f_equal|].
  simpl. now rewrite (is_continuation_not_line_feed c E), Hl.
Qed.

Lemma skip_continuation_length (s : string) :
  String.length (skip_continuation s) <= String.length s.
Proof.
  induction s as [|c s IH]; [reflexivity|]. cbn [skip_continuation].
  destruct (is_continuation c); simpl; lia.
Qed.

(** ** The matcher *)

Lemma rmatch_lit_seq {A : Type} (l : string) (r : regex) (s : string) (gs : captures)
    (k : string -> captures -> option A) :
  rmatch (Lit l ;; r) s gs k =
  match strip_prefix l s with
  | Some s' => rmatch r s' gs k
  | None => None
  end.
Proof. reflexivity. Qed.

(** Whether a pattern matches depends on the continuation only through
    the places where the continuation succeeds. *)
Lemma rmatch_group {A : Type} (n : nat) (r : regex) (s : string) (gs : captures)
    (k : string -> captures -> option A) :
  rmatch (Group n r) s gs k =
  rmatch r s gs (fun s' gs' => k s' (set_group n (consumed s s') gs')).
Proof. reflexivity. Qed.

Lemma rmatch_seq {A : Type} (r1 r2 : regex) (s : string) (gs : captures)
    (k : string -> captures -> option A) :
  rmatch (r1 ;; r2) s gs k = rmatch r1 s gs (fun s' gs' => rmatch r2 s' gs' k).
Proof. reflexivity. Qed.

Lemma rmatch_ok_ext (r : regex) :
  forall (A B : Type) (k1 : string -> captures -> option A)
         (k2 : string -> captures -> option B),
    (forall s g1 g2, ok (k1 s g1) = ok (k2 s g2)) ->
    forall s g1 g2, ok (rmatch r s g1 k1) = ok (rmatch r s g2 k2).
Proof.
  induction r as [l| | |r1 IH1 r2 IH2|r1 IH1|n r1 IH1|]; intros A B k1 k2 H s g1 g2; simpl.
  - destruct (strip_prefix l s); [apply H | reflexivity].
  - destruct s as [|c s]; [reflexivity|]. destruct (Ascii.eqb c LF); [reflexivity | apply H].
  - destruct s as [|c s]; [reflexivity|]. destruct (is_digit c); [apply H | reflexivity].
  - apply IH1. intros s' g1' g2'. now apply IH2.
  - generalize (String.length s) as fuel. intros fuel; revert s g1 g2.
    induction fuel as [|fuel IHf]; intros s g1 g2; simpl; [apply H|].
    assert (E : ok (rmatch r1 s g1
                     (fun s' gs' => if Nat.ltb (String.length s') (String.length s)
                                    then star_rounds (rmatch r1) k1 fuel s' gs' else None))
              = ok (rmatch r1 s g2
                     (fun s' gs' => if Nat.ltb (String.length s') (String.length s)
                                    then star_rounds (rmatch r1) k2 fuel s' gs' else None))).
    { apply IH1. intros s' g1' g2'.
      destruct (Nat.ltb (String.length s') (String.length s)); [apply IHf | reflexivity]. }
    destruct (rmatch r1 s g1 _); destruct (rmatch r1 s g2 _); simpl in *;
      try reflexivity; try discriminate; apply H.
  - apply IH1. intros s' g1' g2'. apply H.
  - destruct (String.eqb s EmptyString || String.eqb s NL); [apply H | reflexivity].
Qed.

(** A match hands to its continuation a remainder of the string. *)
Lemma rmatch_suffix (r : regex) :
  forall (A : Type) (k : string -> captures -> option A) s gs a,
    rmatch r s gs k = Some a ->
    exists pre s' gs', s = pre ++ s' /\ k s' gs' = Some a.
Proof.
  induction r as [l| | |r1 IH1 r2 IH2|r1 IH1|n r1 IH1|]; intros A k s gs a; simpl.
  - destruct (strip_prefix l s) as [s'|] eqn:E; [|discriminate].
    intros H. exists l, s', gs. split; [now apply strip_prefix_some | assumption].
  - destruct s as [|c s]; [discriminate|]. destruct (Ascii.eqb c LF); [discriminate|].
    intros H. destruct (skip_continuation_split s) as (d & Hd & _).
    exists (String c d), (skip_continuation s), gs. split; [simpl; now f_equal | assumption].
  - destruct s as [|c s]; [discriminate|]. destruct (is_digit c); [|discriminate].
    intros H. now exists (String c EmptyString), s, gs.
  - intros H. apply IH1 in H as (p1 & s1 & g1 & -> & H).
    apply IH2 in H as (p2 & s2 & g2 & -> & H).
    exists (p1 ++ p2), s2, g2. split; [now rewrite sapp_assoc | assumption].
  - generalize (String.length s) as fuel. intros fuel; revert s gs.
    induction fuel as [|fuel IHf]; intros s gs; simpl.
    + intros H. now exists EmptyString, s, gs.
    + destruct (rmatch r1 s gs _) as [b|] eqn:E.
      * intros [= ->]. apply IH1 in E as (p1 & s1 & g1 & -> & E).
        destruct (Nat.ltb _ _); [|discriminate].
        apply IHf in E as (p2 & s2 & g2 & -> & E).
        exists (p1 ++ p2), s2, g2. split; [now rewrite sapp_assoc | assumption].
      * intros H. now exists EmptyString, s, gs.
  - intros H. apply IH1 in H as (p1 & s1 & g1 & -> & H).
    now exists p1, s1, (set_group n (consumed (p1 ++ s1) s1) g1).
  - destruct (String.eqb s EmptyString || String.eqb s NL); [|discriminate].
    intros H. now exists EmptyString, s, gs.
Qed.

(** A match calls its continuation on strings that are no longer than
    the one it was given. *)
Lemma rmatch_cont_ext (r : regex) :
  forall (A : Type) (k1 k2 : string -> captures -> option A) s gs,
    (forall s' gs', String.length s' <= String.length s -> k1 s' gs' = k2 s' gs') ->
    rmatch r s gs k1 = rmatch r s gs k2.
Proof.
  induction r as [l| | |r1 IH1 r2 IH2|r1 IH1|n r1 IH1|]; intros A k1 k2 s gs H; simpl.
  - destruct (strip_prefix l s) as [s'|] eqn:E; [|reflexivity].
    apply H. apply strip_prefix_some in E as ->. rewrite slength_app. lia.
  - destruct s as [|c s]; [reflexivity|]. destruct (Ascii.eqb c LF); [reflexivity|].
    apply H. simpl. assert (L := skip_continuation_length s). lia.
  - destruct s as [|c s]; [reflexivity|]. destruct (is_digit c); [|reflexivity].
    apply H. simpl. lia.
  - apply IH1. intros s' gs' Hs. apply IH2. intros s'' gs'' Hs'. apply H. lia.
  - assert (G : forall fuel t gt, String.length t <= String.length s ->
                star_rounds (rmatch r1) k1 fuel t gt = star_rounds (rmatch r1) k2 fuel t gt).
    { induction fuel as [|fuel IHf]; intros t gt Ht; simpl; [now apply H|].
      rewrite (IH1 A _ (fun s' gs' =>
                 if Nat.ltb (String.length s') (String.length t)
                 then star_rounds (rmatch r1) k2 fuel s' gs' else None)).
      - now rewrite (H t gt Ht).
      - intros s' gs' Hs. destruct (Nat.ltb _ _); [|reflexivity]. apply IHf. lia. }
    now apply G.
  - apply IH1. intros s' gs' Hs. now apply H.
  - destruct (String.eqb s EmptyString || String.eqb s NL); [now apply H | reflexivity].
Qed.

Lemma rmatch_none (r : regex) :
  forall (A : Type) (k : string -> captures -> option A) s gs,
    (forall s' gs', k s' gs' = None) -> rmatch r s gs k = None.
Proof.
  induction r as [l| | |r1 IH1 r2 IH2|r1 IH1|n r1 IH1|]; intros A k s gs H; simpl.
  - now destruct (strip_prefix l s).
  - destruct s as [|c s]; [reflexivity|]. now destruct (Ascii.eqb c LF).
  - destruct s as [|c s]; [reflexivity|]. now destruct (is_digit c).
  - apply IH1. intros s' gs'. now apply IH2.
  - generalize (String.length s) as fuel. intros fuel; revert s gs.
    induction fuel as [|fuel IHf]; intros s gs; simpl; [apply H|].
    rewrite IH1; [apply H|]. intros s' gs'. now destruct (Nat.ltb _ _).
  - apply IH1. intros s' gs'. apply H.
  - now destruct (String.eqb s EmptyString || String.eqb s NL).
Qed.

(** The rounds of a repetition never lack fuel: any amount that is at
    least the length of the string gives the same result. *)
Lemma star_rounds_fuel (r : regex) (A : Type) (k : string -> captures -> option A) :
  forall n m s gs,
    String.length s <= n -> String.length s <= m ->
    star_rounds (rmatch r) k n s gs = star_rounds (rmatch r) k m s gs.
Proof.
  assert (Z0 : forall m s gs, String.length s = 0 ->
            star_rounds (rmatch r) k m s gs = k s gs).
  { intros [|m] s gs Hs; simpl; [reflexivity|].
    rewrite rmatch_none; [reflexivity|]. intros s' gs'. rewrite Hs.
    now destruct (String.length s'). }
  induction n as [|n IH]; intros m s gs Hn Hm.
  - rewrite (Z0 m) by lia. reflexivity.
  - destruct m as [|m]; [rewrite (Z0 (S n)) by lia; reflexivity|]. simpl.
    rewrite (rmatch_cont_ext r A _ (fun s' gs' =>
               if Nat.ltb (String.length s') (String.length s)
               then star_rounds (rmatch r) k m s' gs' else None)); [reflexivity|].
    intros s' gs' _. destruct (Nat.ltb_spec (String.length s') (String.length s));
      [|reflexivity].
    apply IH; lia.
Qed.

Lemma substring_0_app (pre s : string) :
  substring 0 (String.length pre) (pre ++ s) = pre.
Proof.
  induction pre as [|c pre IH]; simpl.
  - now destruct s.
  - now rewrite IH.
Qed.

Lemma consumed_app (pre s : string) : consumed (pre ++ s) s = pre.
Proof.
  unfold consumed. rewrite slength_app.
  replace (String.length pre + String.length s - String.length s) with (String.length pre) by lia.
  apply substring_0_app.
Qed.

Lemma get_set_group (n : nat) (v : string) (gs : captures) :
  get_group n (set_group n v gs) = Some v.
Proof.
  induction gs as [|[m w] gs IH]; simpl.
  - now rewrite Nat.eqb_refl.
  - destruct (Nat.eqb m n) eqn:E; simpl; [now rewrite Nat.eqb_refl | now rewrite E].
Qed.

(** ** The patterns *)

Lemma head2_app (l t : string) : 2 <= String.length l -> head2 (l ++ t) = head2 l.
Proof.
  destruct l as [|a [|b l]]; simpl; try lia. intros _.
  unfold head2. simpl. now destruct (l ++ t), l.
Qed.

Lemma matches_lit_head (l : string) (r : regex) (s : string) :
  matches (Lit l ;; r) s = true -> 2 <= String.length l -> head2 s = head2 l.
Proof.
  unfold matches, re_match. rewrite rmatch_lit_seq.
  destruct (strip_prefix l s) as [s'|] eqn:E; [|discriminate].
  intros _ Hl. apply strip_prefix_some in E as ->. now apply head2_app.
Qed.

Lemma anchor_prefix_head2 (l : string) :
  matches anchor_prefix_re l = true -> head2 l = "<a".
Proof.
  intros H.
  assert (H' : matches anchor_head l = true).
  { rewrite <- H. unfold matches, re_match, anchor_prefix_re. rewrite rmatch_group.
    apply rmatch_ok_ext. reflexivity. }
  unfold anchor_head in H'. apply matches_lit_head in H'; [exact H' | simpl; lia].
Qed.

Lemma stylesheet_head2 (l : string) :
  matches stylesheet_re l = true -> head2 l = "<l".
Proof.
  intros H. unfold stylesheet_re in H. apply matches_lit_head in H; [exact H | simpl; lia].
Qed.

Lemma rawlink_head2 (l : string) :
  matches rawlink_re l = true -> head2 l = "<p".
Proof.
  intros H. unfold rawlink_re in H. apply matches_lit_head in H; [exact H | simpl; lia].
Qed.

Lemma star_rounds_total {A : Type} step (k : string -> captures -> option A) :
  (forall s g, ok (k s g) = true) ->
  forall fuel s g, ok (star_rounds step k fuel s g) = true.
Proof.
  intros H [|fuel] s g; simpl; [apply H|].
  destruct (step s g _); [reflexivity | apply H].
Qed.

(** The two anchor patterns match the same lines. *)
Lemma anchor_patterns_agree (l : string) :
  matches anchor_code_re l = matches anchor_prefix_re l.
Proof.
  unfold matches, re_match, anchor_code_re, anchor_prefix_re.
  rewrite rmatch_seq, rmatch_group.
  apply rmatch_ok_ext. intros s g1 g2. rewrite rmatch_group. simpl.
  now apply star_rounds_total.
Qed.

(** The group of the second pattern is the beginning of the line. *)
Lemma anchor_prefix_is_prefix (l : string) (m : captures) :
  re_match anchor_prefix_re l = Some m -> exists rest, l = group m 1 ++ rest.
Proof.
  unfold re_match, anchor_prefix_re. rewrite rmatch_group. intros H.
  apply rmatch_suffix in H as (pre & s' & gs' & -> & [= <-]).
  exists s'. unfold group. now rewrite get_set_group, consumed_app.
Qed.

(** ** The first loop *)

Lemma head2_content_open : head2 content_open = "<d".
Proof. reflexivity. Qed.

Lemma head2_div_close : head2 div_close = "</".
Proof. reflexivity. Qed.

Lemma stylesheet_not_content_open : matches stylesheet_re content_open = false.
Proof. vm_compute. reflexivity. Qed.

Lemma stylesheet_not_div_close : matches stylesheet_re div_close = false.
Proof. vm_compute. reflexivity. Qed.

Lemma pass1_line_state (st : p1state) (l : string) :
  snd (pass1_line st l) =
  mk_p1 (collect (code st) l) (in_content st || String.eqb l content_open).
Proof.
  unfold pass1_line.
  destruct (matches stylesheet_re l) eqn:E1.
  - destruct (String.eqb_spec l content_open) as [->|_].
    + rewrite stylesheet_not_content_open in E1. discriminate.
    + now rewrite orb_false_r.
  - destruct (String.eqb_spec l content_open) as [->|_]; [now rewrite orb_true_r|].
    rewrite orb_false_r.
    destruct (negb (in_content st)); [reflexivity|].
    destruct (String.eqb l div_close); [reflexivity|].
    destruct (matches rawlink_re l); reflexivity.
Qed.

(** An anchor line is printed as it was read. *)
Lemma pass1_line_anchor (st : p1state) (l : string) :
  matches anchor_prefix_re l = true -> fst (pass1_line st l) = l.
Proof.
  intros H. apply anchor_prefix_head2 in H. unfold pass1_line.
  destruct (matches stylesheet_re l) eqn:E1.
  { apply stylesheet_head2 in E1. congruence. }
  destruct (String.eqb_spec l content_open) as [->|_]; [reflexivity|].
  destruct (negb (in_content st)); [reflexivity|].
  destruct (String.eqb_spec l div_close) as [->|_].
  { rewrite head2_div_close in H. discriminate. }
  destruct (matches rawlink_re l) eqn:E2; [|reflexivity].
  apply rawlink_head2 in E2. congruence.
Qed.

Lemma pass1_cons (st : p1state) (l : string) (rest : list string) :
  pass1 st (l :: rest) =
  (fst (pass1_line st l) :: fst (pass1 (snd (pass1_line st l)) rest),
   snd (pass1 (snd (pass1_line st l)) rest)).
Proof.
  simpl. destruct (pass1_line st l) as [p st']. simpl.
  now destruct (pass1 st' rest).
Qed.

Lemma pass1_app (st : p1state) (l1 l2 : list string) :
  pass1 st (l1 ++ l2) =
  ((fst (pass1 st l1) ++ fst (pass1 (snd (pass1 st l1)) l2))%list,
   snd (pass1 (snd (pass1 st l1)) l2)).
Proof.
  revert st; induction l1 as [|l l1 IH]; intros st.
  - simpl. now destruct (pass1 st l2).
  - rewrite <- app_comm_cons, !pass1_cons, IH. reflexivity.
Qed.

Lemma pass1_length (st : p1state) (lines : list string) :
  List.length (fst (pass1 st lines)) = List.length lines.
Proof.
  revert st; induction lines as [|l lines IH]; intros st; [reflexivity|].
  rewrite pass1_cons. simpl. now rewrite IH.
Qed.

Lemma pass1_in_content_mono (st : p1state) (lines : list string) :
  in_content st = true -> in_content (snd (pass1 st lines)) = true.
Proof.
  revert st; induction lines as [|l lines IH]; intros st H; [assumption|].
  rewrite pass1_cons. simpl. apply IH. rewrite pass1_line_state. simpl. now rewrite H.
Qed.

Lemma pass1_line_content_open (st : p1state) :
  pass1_line st content_open = (content_open, mk_p1 (collect (code st) content_open) true).
Proof.
  unfold pass1_line. rewrite stylesheet_not_content_open, String.eqb_refl. reflexivity.
Qed.

Lemma pass1_line_div_close (st : p1state) :
  in_content st = true ->
  fst (pass1_line st div_close) = div_close ++ "</div>".
Proof.
  intros H. unfold pass1_line. rewrite stylesheet_not_div_close, H.
  replace (String.eqb div_close content_open) with false by (vm_compute; reflexivity).
  now rewrite String.eqb_refl.
Qed.

(** Before the content opener a closing tag is printed as it was read. *)
Lemma pass1_outside (pre rest : list string) :
  forall st k,
    in_content st = false -> ~ In content_open pre ->
    nth_error pre k = Some div_close ->
    nth_error (fst (pass1 st (pre ++ rest))) k = Some div_close.
Proof.
  induction pre as [|l pre IH]; intros st k Hi Hn Hk; [now destruct k|].
  rewrite <- app_comm_cons, pass1_cons. cbn [fst].
  destruct k as [|k]; simpl in Hk.
  - injection Hk as ->. cbn [nth_error]. f_equal. unfold pass1_line.
    rewrite stylesheet_not_div_close, Hi.
    now replace (String.eqb div_close content_open) with false by (vm_compute; reflexivity).
  - cbn [nth_error]. apply IH; [|intros C; apply Hn; now right|assumption].
    rewrite pass1_line_state. cbn [in_content]. rewrite Hi.
    destruct (String.eqb_spec l content_open) as [->|_]; [|reflexivity].
    exfalso. apply Hn. now left.
Qed.

(** ** The second loop *)

Lemma prefix_anchors_cons (l : string) (lines : list string) :
  prefix_anchors (l :: lines) =
  (if matches anchor_prefix_re l then 1 else 0) + prefix_anchors lines.
Proof. unfold prefix_anchors. simpl. now destruct (matches anchor_prefix_re l). Qed.

Lemma code_anchors_prefix_anchors (lines : list string) :
  code_anchors lines = prefix_anchors lines.
Proof.
  unfold code_anchors, prefix_anchors. induction lines as [|l lines IH]; [reflexivity|].
  simpl. rewrite anchor_patterns_agree. destruct (matches anchor_prefix_re l); simpl; congruence.
Qed.

Lemma pass2_cons (codelines : list string) (l : string) (rest : list string) (j : nat) :
  pass2 codelines (l :: rest) j =
  match re_match anchor_prefix_re l with
  | Some m =>
      match nth_error codelines j with
      | Some h =>
          ((group m 1 ++ h ++ NL) :: fst (fst (pass2 codelines rest (j + 1))),
           snd (fst (pass2 codelines rest (j + 1))),
           snd (pass2 codelines rest (j + 1)))
      | None => ([], j, Some IndexError)
      end
  | None =>
      (l :: fst (fst (pass2 codelines rest j)),
       snd (fst (pass2 codelines rest j)),
       snd (pass2 codelines rest j))
  end.
Proof.
  simpl. destruct (re_match anchor_prefix_re l).
  - destruct (nth_error codelines j); [|reflexivity].
    now destruct (pass2 codelines rest (j + 1)) as [[? ?] ?].
  - now destruct (pass2 codelines rest j) as [[? ?] ?].
Qed.

Lemma pass2_anchor (codelines : list string) (l : string) (rest : list string)
    (j : nat) (m : captures) (h : string) (ps : list string) (j' : nat) (e : option exn) :
  re_match anchor_prefix_re l = Some m ->
  nth_error codelines j = Some h ->
  pass2 codelines rest (j + 1) = (ps, j', e) ->
  pass2 codelines (l :: rest) j = ((group m 1 ++ h ++ NL) :: ps, j', e).
Proof. intros Hm Hh Hr. rewrite pass2_cons, Hm, Hh, Hr. reflexivity. Qed.

Lemma pass2_other (codelines : list string) (l : string) (rest : list string)
    (j : nat) (ps : list string) (j' : nat) (e : option exn) :
  re_match anchor_prefix_re l = None ->
  pass2 codelines rest j = (ps, j', e) ->
  pass2 codelines (l :: rest) j = (l :: ps, j', e).
Proof. intros Hm Hr. rewrite pass2_cons, Hm, Hr. reflexivity. Qed.

(** With enough highlighted lines the loop runs to its end, and the
    cursor has advanced once for each anchor. *)
Lemma pass2_completes (codelines lines : list string) :
  forall j, j + prefix_anchors lines <= List.length codelines ->
  exists pieces, pass2 codelines lines j = (pieces, j + prefix_anchors lines, None).
Proof.
  induction lines as [|l lines IH]; intros j H.
  - exists []. simpl. f_equal. f_equal. unfold prefix_anchors. simpl. lia.
  - rewrite prefix_anchors_cons in *. rewrite pass2_cons. unfold matches in *.
    destruct (re_match anchor_prefix_re l) as [m|]; simpl in *.
    + destruct (nth_error codelines j) as [h|] eqn:E.
      2:{ apply nth_error_None in E. lia. }
      destruct (IH (j + 1)) as [ps Hps]; [lia|].
      rewrite Hps. simpl. eexists. f_equal. f_equal. lia.
    + destruct (IH j) as [ps Hps]; [lia|].
      rewrite Hps. simpl. eexists. reflexivity.
Qed.

(** With too few of them the loop stops at the first access past the end. *)
Lemma pass2_runs_out (codelines lines : list string) :
  forall j, j <= List.length codelines ->
  List.length codelines < j + prefix_anchors lines ->
  exists pieces, pass2 codelines lines j = (pieces, List.length codelines, Some IndexError).
Proof.
  induction lines as [|l lines IH]; intros j Hj H.
  - unfold prefix_anchors in H. simpl in H. lia.
  - rewrite prefix_anchors_cons in H. rewrite pass2_cons. unfold matches in H.
    destruct (re_match anchor_prefix_re l) as [m|]; simpl in H.
    + destruct (nth_error codelines j) as [h|] eqn:E.
      * assert (j < List.length codelines) by (apply nth_error_Some; congruence).
        destruct (IH (j + 1)) as [ps Hps]; [lia | lia |].
        rewrite Hps. simpl. eexists. reflexivity.
      * apply nth_error_None in E. exists []. f_equal. f_equal. lia.
    + destruct (IH j) as [ps Hps]; [lia | lia |].
      rewrite Hps. simpl. eexists. reflexivity.
Qed.

Lemma pass2_splices_from (codelines lines : list string) :
  forall j0 pieces j,
  pass2 codelines lines j0 = (pieces, j, None) ->
  j = j0 + prefix_anchors lines /\
  forall k line, nth_error lines k = Some line ->
    match re_match anchor_prefix_re line with
    | Some m =>
        exists h rest,
          line = group m 1 ++ rest /\
          nth_error codelines (j0 + prefix_anchors (firstn k lines)) = Some h /\
          nth_error pieces k = Some (group m 1 ++ h ++ NL)
    | None => nth_error pieces k = Some line
    end.
Proof.
  induction lines as [|l lines IH]; intros j0 pieces j H.
  - simpl in H. injection H as <- <-. split; [unfold prefix_anchors; simpl; lia|].
    intros [|k] line; discriminate.
  - rewrite pass2_cons in H. rewrite prefix_anchors_cons. unfold matches.
    destruct (re_match anchor_prefix_re l) as [m|] eqn:Em.
    + destruct (nth_error codelines j0) as [h|] eqn:Eh; [|discriminate].
      destruct (pass2 codelines lines (j0 + 1)) as [[ps j'] e] eqn:E2. simpl in H.
      injection H as <- <- ->.
      destruct (IH _ _ _ E2) as [Hj Hk]. split; [simpl; lia|].
      intros [|k] line Hl; simpl in Hl.
      * injection Hl as <-. rewrite Em.
        destruct (anchor_prefix_is_prefix _ _ Em) as [rest Hr].
        exists h, rest. split; [exact Hr|]. split; [|reflexivity].
        simpl. unfold prefix_anchors. simpl. now rewrite Nat.add_0_r.
      * specialize (Hk k line Hl). simpl firstn. rewrite prefix_anchors_cons.
        unfold matches. rewrite Em. simpl ok. cbv iota.
        destruct (re_match anchor_prefix_re line); [|exact Hk].
        destruct Hk as (h' & rest & ? & ? & ?). exists h', rest.
        split; [assumption|]. split; [|assumption].
        now replace (j0 + (1 + prefix_anchors (firstn k lines)))
          with (j0 + 1 + prefix_anchors (firstn k lines)) by lia.
    + destruct (pass2 codelines lines j0) as [[ps j'] e] eqn:E2. simpl in H.
      injection H as <- <- ->.
      destruct (IH _ _ _ E2) as [Hj Hk]. split; [simpl; lia|].
      intros [|k] line Hl; simpl in Hl.
      * injection Hl as <-. now rewrite Em.
      * specialize (Hk k line Hl). simpl firstn. rewrite prefix_anchors_cons.
        unfold matches. rewrite Em. exact Hk.
Qed.

(** ** The walk *)

(** ** Paths *)

Lemma contains_app (c : ascii) (a b : string) :
  contains c (a ++ b) = contains c a || contains c b.
Proof.
  induction a as [|x a IH]; simpl; [reflexivity|].
  now rewrite IH, orb_assoc.
Qed.

Lemma app_last_char (c : ascii) (x i b : string) :
  i <> EmptyString -> x ++ i = b ++ String c EmptyString ->
  exists i', i = i' ++ String c EmptyString.
Proof.
  intros Hi. revert b; induction x as [|a x IH]; intros b H; simpl in H.
  - now exists b.
  - destruct b as [|a' b]; simpl in H.
    + injection H as _ H. destruct x; [simpl in H; contradiction | discriminate].
    + injection H as _ H. now apply IH with b.
Qed.

Lemma valid_name_inv (i : string) :
  valid_name i = true -> i <> EmptyString /\ contains "/"%char i = false.
Proof.
  unfold valid_name. intros H. apply andb_prop in H as [H1 H2].
  apply negb_true_iff in H1, H2. split; [|assumption].
  now apply String.eqb_neq.
Qed.

Lemma no_slash_no_trailing_slash (x i : string) :
  valid_name i = true -> endswith (x ++ i) "/" = false.
Proof.
  intros H. apply valid_name_inv in H as [Hn Hs].
  unfold endswith. destruct (strip_suffix "/" (x ++ i)) as [b|] eqn:E; [|reflexivity].
  apply strip_suffix_some in E. apply app_last_char in E as [i' ->]; [|assumption].
  rewrite contains_app in Hs. simpl in Hs. rewrite orb_true_r in Hs. discriminate.
Qed.

(** Joining a listed name to a directory appends it to the directory's
    path with its slash. *)
Lemma join_valid (q i : string) :
  valid_name i = true -> join q i = join q EmptyString ++ i.
Proof.
  intros H. apply valid_name_inv in H as [Hn Hs]. unfold join.
  assert (E : startswith i "/" = false).
  { destruct i as [|c i]; [reflexivity|]. unfold startswith.
    cbn [strip_prefix contains] in *.
    apply orb_false_iff in Hs as [Hc _]. rewrite Ascii.eqb_sym in Hc. now rewrite Hc. }
  rewrite E. cbn [startswith strip_prefix].
  destruct (String.eqb q EmptyString || endswith q "/").
  - now rewrite sapp_nil_r.
  - now rewrite !sapp_assoc.
Qed.

Lemma join_nonempty (q i : string) : valid_name i = true -> join q i <> EmptyString.
Proof.
  intros H. rewrite join_valid by assumption. apply valid_name_inv in H as [Hn _].
  intros E. apply (f_equal String.length) in E. rewrite slength_app in E.
  destruct i; [contradiction | simpl in E; lia].
Qed.

Lemma join_subdirectory (q i : string) :
  valid_name i = true ->
  join (join q i) EmptyString = join q EmptyString ++ i ++ "/".
Proof.
  intros H. unfold join at 1. cbn [startswith strip_prefix].
  replace (String.eqb (join q i) EmptyString) with false
    by (symmetry; apply String.eqb_neq; now apply join_nonempty).
  rewrite (join_valid q i H), no_slash_no_trailing_slash by assumption.
  cbn [orb]. now rewrite sapp_assoc.
Qed.

(** ** Listings *)

Lemma valid_entries_cons (i : string) (n : node) (es : list (string * node)) :
  valid_entries ((i, n) :: es) = valid_name i && valid_node n && valid_entries es.
Proof. reflexivity. Qed.

Lemma valid_entries_in (es : list (string * node)) (i : string) (n : node) :
  valid_entries es = true -> In (i, n) es ->
  valid_name i = true /\ valid_node n = true.
Proof.
  induction es as [|[i' n'] es IH]; intros H Hin; [contradiction|].
  rewrite valid_entries_cons in H. apply andb_prop in H as [H H3].
  apply andb_prop in H as [H1 H2].
  destruct Hin as [[= -> ->]|Hin]; [now split | now apply IH].
Qed.

Lemma lookup_in (es : list (string * node)) (i : string) (n : node) :
  NoDup (map fst es) -> In (i, n) es -> lookup i es = Some n.
Proof.
  induction es as [|[i' n'] es IH]; intros Hd Hin; [contradiction|].
  simpl in *. inversion Hd as [|? ? Hni Hd']; subst.
  destruct Hin as [[= -> ->]|Hin]; [now rewrite String.eqb_refl|].
  destruct (String.eqb_spec i' i) as [->|_]; [|now apply IH].
  exfalso. apply Hni. change i with (fst (i, n)). now apply in_map.
Qed.

(** The index page of a listed directory is recognised as such. *)
Lemma isdir_index (q : string) (es sub : list (string * node)) (X : string) :
  valid_name (X ++ ".html") = true ->
  lookup X es = Some (Dir sub) ->
  isdir q es (removesuffix (join q (X ++ ".html")) ".html") = true.
Proof.
  intros Hv Hl. rewrite join_valid by assumption.
  rewrite <- sapp_assoc, removesuffix_app.
  unfold isdir. rewrite strip_prefix_app. unfold names_directory. rewrite Hl.
  now destruct (String.eqb X EmptyString || String.eqb X "." || String.eqb X "..").
Qed.

(** Induction over a tree: a directory has the property when the nodes it
    lists have it. *)
Lemma node_induction (P : node -> Prop) :
  (forall c, P (File c)) ->
  (forall es, Forall (fun e => P (snd e)) es -> P (Dir es)) ->
  forall n, P n.
Proof.
  intros HF HD. fix IH 1. intros [c|es]; [apply HF|].
  apply HD. induction es as [|[i n] es IHes]; constructor; [apply IH | exact IHes].
Qed.

(** How a suffix can sit in a concatenation: inside the second part, or
    across the seam. *)
Lemma suffix_of_app (x i b s : string) :
  x ++ i = b ++ s ->
  (exists b2, i = b2 ++ s) \/
  (exists s1, s1 <> EmptyString /\ s = s1 ++ i /\ x = b ++ s1).
Proof.
  revert b; induction x as [|a x IH]; intros b H; simpl in H.
  - left. now exists b.
  - destruct b as [|a' b]; simpl in H.
    + right. exists (String a x). repeat split; [discriminate | now symmetry].
    + injection H as <- H. destruct (IH b H) as [L|(s1 & Hn & Hs & ->)]; [now left|].
      right. exists s1. repeat split; assumption.
Qed.

Lemma join_empty_shape (q : string) :
  join q EmptyString = EmptyString \/ exists y, join q EmptyString = y ++ "/".
Proof.
  unfold join. cbn [startswith strip_prefix].
  destruct (String.eqb_spec q EmptyString) as [->|_]; [now left|]. cbn [orb].
  unfold endswith. destruct (strip_suffix "/" q) as [b|] eqn:E.
  - right. exists b. rewrite sapp_nil_r. now apply strip_suffix_some.
  - right. exists q. reflexivity.
Qed.

(** Removing the suffix from the joined path removes it from the name. *)
Lemma removesuffix_join (q i : string) :
  valid_name i = true ->
  removesuffix (join q i) ".html" = join q EmptyString ++ removesuffix i ".html".
Proof.
  intros Hv. rewrite join_valid by assumption. unfold removesuffix at 2.
  destruct (strip_suffix ".html" i) as [b|] eqn:E.
  - apply strip_suffix_some in E as ->. rewrite <- sapp_assoc. apply removesuffix_app.
  - unfold removesuffix.
    destruct (strip_suffix ".html" (join q EmptyString ++ i)) as [b'|] eqn:E'; [|reflexivity].
    exfalso. apply strip_suffix_some in E'.
    apply suffix_of_app in E' as [[b2 ->]|(s1 & Hn & Hs & Hx)].
    + rewrite strip_suffix_app in E. discriminate.
    + destruct (join_empty_shape q) as [E0|[y E0]]; rewrite E0 in Hx.
      * destruct b'; [|discriminate]. simpl in Hx. now subst s1.
      * symmetry in Hx. change "/" with (String "/"%char EmptyString) in Hx.
        apply app_last_char in Hx as [s1' ->]; [|assumption].
        apply (f_equal (contains "/"%char)) in Hs.
        rewrite !contains_app in Hs. simpl in Hs. rewrite orb_true_r in Hs. discriminate.
Qed.

(** The test that decides whether a listed file is a directory index,
    read on names. *)
Lemma isdir_removesuffix (q : string) (es : list (string * node)) (i : string) :
  valid_name i = true ->
  isdir q es (removesuffix (join q i) ".html")
  = names_directory es (removesuffix i ".html").
Proof.
  intros Hv. rewrite removesuffix_join by assumption.
  unfold isdir. now rewrite strip_prefix_app.
Qed.

(** ** The loop over a listing *)

Section WalkerFacts.

Variable Lexer : Type.
Variable get_lexer : string -> option Lexer.
Variable highlight : string -> Lexer -> string.
Variable unescape : string -> string.

Lemma traverse_dir (q : string) (es : list (string * node)) :
  traverse_repository Lexer get_lexer highlight unescape q (Dir es) =
  let '(o, es', ev) :=
    loop Lexer get_lexer highlight unescape q es
         (traverse_repository Lexer get_lexer highlight unescape) SUCCESS es in
  (o, Dir es', Walk q :: ev).
Proof. reflexivity. Qed.

(** A loop that returns has entered every directory it was given and
    called [highlight_file] on every file that is no directory index. *)
Lemma loop_ret_visits (q : string) (listing : list (string * node))
    (recurse : string -> node -> outcome * node * list event) :
  (forall p es o n' ev, recurse p (Dir es) = (o, n', ev) -> In (Walk p) ev) ->
  forall rest retval r rest' ev,
    loop Lexer get_lexer highlight unescape q listing recurse retval rest
    = (Ret r, rest', ev) ->
    (forall i sub, In (i, Dir sub) rest -> In (Walk (join q i)) ev) /\
    (forall i c, In (i, File c) rest ->
       isdir q listing (removesuffix (join q i) ".html") = false ->
       In (Call (join q i)) ev).
Proof.
  intros Hrec. induction rest as [|[i n] rest IH]; intros retval r rest' ev H.
  - split; intros; contradiction.
  - cbn [loop] in H. destruct n as [c|sub].
    + destruct (isdir q listing (removesuffix (join q i) ".html")) eqn:Ed; cbn [negb] in H.
      * destruct (loop _ _ _ _ q listing recurse retval rest) as [[o2 r2] e2] eqn:E2.
        injection H as -> <- <-. destruct (IH _ _ _ _ E2) as [IHd IHf].
        split.
        -- intros i0 sub0 [[=]|Hin]. now apply IHd with sub0.
        -- intros i0 c0 [[= -> ->]|Hin] Hd; [congruence | now apply IHf with c0].
      * destruct (highlight_file _ _ _ _ (join q i) c) as [[o1 c1] ds].
        destruct o1 as [r1|]; [|discriminate].
        destruct (loop _ _ _ _ q listing recurse r1 rest) as [[o2 r2] e2] eqn:E2.
        injection H as -> <- <-. destruct (IH _ _ _ _ E2) as [IHd IHf].
        split.
        -- intros i0 sub0 [[=]|Hin]. right. apply in_or_app. right. now apply IHd with sub0.
        -- intros i0 c0 [[= -> ->]|Hin] Hd; [now left|].
           right. apply in_or_app. right. now apply IHf with c0.
    + destruct (recurse (join q i) (Dir sub)) as [[o1 n1] e1] eqn:Er.
      destruct o1 as [r1|]; [|discriminate].
      destruct (loop _ _ _ _ q listing recurse r1 rest) as [[o2 r2] e2] eqn:E2.
      injection H as -> <- <-. destruct (IH _ _ _ _ E2) as [IHd IHf].
      split.
      * intros i0 sub0 [[= -> ->]|Hin]; apply in_or_app.
        -- left. now apply Hrec in Er.
        -- right. now apply IHd with sub0.
      * intros i0 c0 [[=]|Hin] Hd. apply in_or_app. right. now apply IHf with c0.
Qed.

(** Where the calls of a loop come from: a listed file that is no
    directory index, or the walk of a listed directory. *)
Lemma loop_calls (q : string) (listing : list (string * node))
    (recurse : string -> node -> outcome * node * list event)
    (Q : string -> string -> Prop) :
  forall rest,
    (forall i n o n' ev p, In (i, n) rest ->
       recurse (join q i) n = (o, n', ev) -> In (Call p) ev -> Q i p) ->
    forall retval o rest' ev,
      loop Lexer get_lexer highlight unescape q listing recurse retval rest
      = (o, rest', ev) ->
      forall p, In (Call p) ev ->
        (exists i c, In (i, File c) rest /\ p = join q i /\
           isdir q listing (removesuffix (join q i) ".html") = false) \/
        (exists i sub, In (i, Dir sub) rest /\ Q i p).
Proof.
  induction rest as [|[i n] rest IH]; intros Hrec retval o rest' ev H p Hp.
  - simpl in H. injection H as <- <- <-. contradiction.
  - assert (Hrec' : forall i n o n' ev p, In (i, n) rest ->
              recurse (join q i) n = (o, n', ev) -> In (Call p) ev -> Q i p).
    { intros * Hin. apply Hrec. now right. }
    assert (Step : forall retval o rest' ev,
              loop Lexer get_lexer highlight unescape q listing recurse retval rest
              = (o, rest', ev) -> In (Call p) ev ->
              (exists i0 c, In (i0, File c) ((i, n) :: rest) /\ p = join q i0 /\
                 isdir q listing (removesuffix (join q i0) ".html") = false) \/
              (exists i0 sub, In (i0, Dir sub) ((i, n) :: rest) /\ Q i0 p)).
    { intros * E2 Hin. destruct (IH Hrec' _ _ _ _ E2 p Hin) as [(i0 & c0 & ? & ? & ?)|(i0 & s0 & ? & ?)].
      - left. exists i0, c0. repeat split; [now right | assumption | assumption].
      - right. exists i0, s0. split; [now right | assumption]. }
    cbn [loop] in H. destruct n as [c|sub].
    + destruct (isdir q listing (removesuffix (join q i) ".html")) eqn:Ed; cbn [negb] in H.
      * destruct (loop _ _ _ _ q listing recurse retval rest) as [[o2 r2] e2] eqn:E2.
        injection H as <- <- <-. now apply Step with retval o2 r2 e2.
      * assert (Here : (exists i0 c0, In (i0, File c0) ((i, File c) :: rest) /\
                          join q i = join q i0 /\
                          isdir q listing (removesuffix (join q i0) ".html") = false)).
        { exists i, c. repeat split; [now left | assumption]. }
        destruct (highlight_file _ _ _ _ (join q i) c) as [[o1 c1] ds].
        assert (Hds : ~ In (Call p) (map Stderr ds)).
        { intros Hin. apply in_map_iff in Hin as (d & [=] & _). }
        destruct o1 as [r1|].
        -- destruct (loop _ _ _ _ q listing recurse r1 rest) as [[o2 r2] e2] eqn:E2.
           injection H as <- <- <-. destruct Hp as [[= <-]|Hp]; [now left|].
           apply in_app_or in Hp as [Hp|Hp]; [contradiction|].
           now apply Step with r1 o2 r2 e2.
        -- injection H as <- <- <-. destruct Hp as [[= <-]|Hp]; [now left | contradiction].
    + destruct (recurse (join q i) (Dir sub)) as [[o1 n1] e1] eqn:Er.
      assert (Sub : In (Call p) e1 -> exists i0 sub0,
                 In (i0, Dir sub0) ((i, Dir sub) :: rest) /\ Q i0 p).
      { intros Hin. exists i, sub. split; [now left|].
        apply (Hrec i (Dir sub) o1 n1 e1 p); [now left | assumption | assumption]. }
      destruct o1 as [r1|].
      * destruct (loop _ _ _ _ q listing recurse r1 rest) as [[o2 r2] e2] eqn:E2.
        injection H as <- <- <-. apply in_app_or in Hp as [Hp|Hp]; [right; now apply Sub|].
        now apply Step with r1 o2 r2 e2.
      * injection H as <- <- <-. right. now apply Sub.
Qed.

(** Every call of a walk is on a path below the directory walked. *)
Lemma traverse_calls_below (d : node) :
  valid_node d = true ->
  forall q o d' ev p,
    traverse_repository Lexer get_lexer highlight unescape q d = (o, d', ev) ->
    In (Call p) ev -> exists t, p = join q EmptyString ++ t.
Proof.
  induction d as [c|es IH] using node_induction; intros Hv q o d' ev p H Hp.
  - simpl in H. injection H as <- <- <-. contradiction.
  - rewrite traverse_dir in H.
    destruct (loop _ _ _ _ q es _ SUCCESS es) as [[o1 es1] e1] eqn:E.
    injection H as <- <- <-. destruct Hp as [[=]|Hp].
    eapply (loop_calls q es _ (fun i p => exists t, p = join q EmptyString ++ i ++ "/" ++ t))
      in E; [| |exact Hp].
    + destruct E as [(i & c & Hin & -> & _)|(i & sub & _ & t & ->)].
      * exists i. apply join_valid. now apply (valid_entries_in es i (File c)).
      * now exists (i ++ "/" ++ t).
    + intros i n o2 n2 ev2 p2 Hin Hw Hp2.
      destruct (valid_entries_in es i n Hv Hin) as [Hvi Hvn].
      rewrite Forall_forall in IH.
      destruct (IH (i, n) Hin Hvn _ _ _ _ _ Hw Hp2) as [t ->].
      exists t. rewrite join_subdirectory by assumption. now rewrite !sapp_assoc.
Qed.

End WalkerFacts.

(** ** What the second loop reads *)

(** ** Replacement *)

Lemma replace_skip (old new x r : string) :
  replace_from old new (String.length x) (x ++ r) = replace_from old new 0 r.
Proof. induction x as [|c x IH]; simpl; [reflexivity | exact IH]. Qed.

Lemma replace_other (old new : string) (c : ascii) (s : string) :
  startswith (String c s) old = false ->
  replace (String c s) old new = String c (replace s old new).
Proof. unfold replace. cbn [replace_from]. now intros ->. Qed.

Lemma replace_occurrence (old new r : string) :
  old <> EmptyString ->
  replace (old ++ r) old new = new ++ replace r old new.
Proof.
  destruct old as [|a old]; [contradiction|]. intros _. unfold replace.
  change (String a old ++ r) with (String a (old ++ r)). cbn [replace_from].
  change (String a (old ++ r)) with (String a old ++ r) at 1.
  rewrite startswith_app. f_equal.
  replace (String.length (String a old) - 1) with (String.length old) by (simpl; lia).
  apply replace_skip.
Qed.

Lemma startswith_some (s p : string) :
  startswith s p = true -> exists r, s = p ++ r.
Proof.
  unfold startswith. destruct (strip_prefix p s) as [r|] eqn:E; [|discriminate].
  intros _. exists r. now apply strip_prefix_some.
Qed.

(** An occurrence cannot reach over a character that the sought string
    does not have. *)
Lemma startswith_before (c : ascii) (old b t : string) :
  contains c old = false ->
  startswith (b ++ String c t) old = startswith b old.
Proof.
  unfold startswith. revert b; induction old as [|a old IH]; intros b H; [reflexivity|].
  simpl in H. apply orb_false_iff in H as [Ha Ho].
  destruct b as [|x b]; simpl.
  - now rewrite Ha.
  - destruct (Ascii.eqb a x); [now apply IH | reflexivity].
Qed.

Lemma replace_over (c : ascii) (old new : string) :
  old <> EmptyString -> contains c old = false ->
  forall n b t, String.length b <= n ->
    replace (b ++ String c t) old new = replace b old new ++ String c (replace t old new).
Proof.
  intros Hn Hc. induction n as [|n IH]; intros b t Hb.
  - destruct b; [|simpl in Hb; lia]. simpl.
    rewrite replace_other; [reflexivity|].
    change (String c t) with (EmptyString ++ String c t).
    rewrite startswith_before by assumption.
    destruct old; [contradiction | reflexivity].
  - destruct (startswith b old) eqn:E.
    + apply startswith_some in E as [r ->]. rewrite sapp_assoc, !replace_occurrence by assumption.
      rewrite sapp_assoc. f_equal. apply IH. rewrite slength_app in Hb.
      destruct old; [contradiction | simpl in Hb; lia].
    + destruct b as [|x b].
      * apply IH. simpl. lia.
      * change (String x b ++ String c t) with (String x (b ++ String c t)).
        rewrite !replace_other.
        -- simpl. f_equal. apply IH. simpl in Hb. lia.
        -- exact E.
        -- change (String x (b ++ String c t)) with (String x b ++ String c t).
           now rewrite startswith_before.
Qed.

Lemma replace_empty (old new : string) : replace EmptyString old new = EmptyString.
Proof. reflexivity. Qed.

(** Replacement in a line with its line feed is replacement in the line. *)
Lemma replace_line (old new b : string) :
  old <> EmptyString -> contains LF old = false ->
  replace (b ++ NL) old new = replace b old new ++ NL.
Proof.
  intros Hn Hc. unfold NL.
  now rewrite (replace_over LF old new Hn Hc (String.length b) b EmptyString), replace_empty.
Qed.

Lemma replace_keeps_out (c : ascii) (old new : string) :
  old <> EmptyString -> contains c new = false ->
  forall n s, String.length s <= n ->
    contains c s = false -> contains c (replace s old new) = false.
Proof.
  intros Hn Hc. induction n as [|n IH]; intros s Hs H.
  - destruct s; [reflexivity | simpl in Hs; lia].
  - destruct (startswith s old) eqn:E.
    + apply startswith_some in E as [r ->]. rewrite replace_occurrence by assumption.
      rewrite contains_app in *. rewrite Hc. apply orb_false_iff in H as [_ H].
      apply IH; [|assumption]. rewrite slength_app in Hs.
      destruct old; [contradiction | simpl in Hs; lia].
    + destruct s as [|x s]; [reflexivity|].
      rewrite replace_other by assumption. simpl in *.
      apply orb_false_iff in H as [Hx H]. rewrite Hx. apply IH; [lia | assumption].
Qed.

(** ** Reading lines *)

Lemma split_lines_line (b s : string) :
  contains LF b = false -> split_lines (b ++ NL ++ s) = (b ++ NL) :: split_lines s.
Proof.
  induction b as [|c b IH]; intros H.
  - reflexivity.
  - simpl in H. apply orb_false_iff in H as [Hc H].
    change (String c b ++ NL ++ s) with (String c (b ++ NL ++ s)).
    cbn [split_lines]. rewrite Hc, IH by assumption. reflexivity.
Qed.

Lemma split_lines_partial (b : string) :
  contains LF b = false -> b <> EmptyString -> split_lines b = [b].
Proof.
  induction b as [|c b IH]; intros H Hn; [contradiction|].
  simpl in H. apply orb_false_iff in H as [Hc H]. cbn [split_lines]. rewrite Hc.
  destruct b as [|c' b]; [reflexivity|].
  rewrite IH; [reflexivity | assumption | discriminate].
Qed.

Lemma split_lines_ok (data : string) : lines_ok (split_lines data).
Proof.
  induction data as [|c data IH]; [constructor|]. cbn [split_lines].
  destruct (Ascii.eqb_spec c LF) as [->|Hc].
  - apply lines_cons; [|assumption]. now exists EmptyString.
  - assert (Hc' : Ascii.eqb c LF = false) by now apply Ascii.eqb_neq.
    destruct (split_lines data) as [|h t].
    + apply lines_last. split; [discriminate|]. simpl. now rewrite Hc'.
    + inversion IH as [|l [Hn Hl]|l rest [b [-> Hb]] Hr]; subst.
      * apply lines_last. split; [discriminate|]. simpl. now rewrite Hc', Hl.
      * apply lines_cons; [|assumption]. exists (String c b). split; [reflexivity|].
        simpl. now rewrite Hc', Hb.
Qed.

(** ** Lines that are no anchors *)

Lemma head2_inv (l : string) (a b : ascii) :
  head2 l = String a (String b EmptyString) -> exists t, l = String a (String b t).
Proof.
  destruct l as [|x [|y t]]; unfold head2; simpl; try discriminate.
  intros [= -> ->]. now exists t.
Qed.

Lemma head2_two (a b : ascii) (t : string) :
  head2 (String a (String b t)) = String a (String b EmptyString).
Proof. unfold head2. simpl. now destruct t. Qed.

Lemma not_anchor (l : string) :
  head2 l <> "<a" -> matches anchor_prefix_re l = false.
Proof.
  intros H. destruct (matches anchor_prefix_re l) eqn:E; [|reflexivity].
  now apply anchor_prefix_head2 in E.
Qed.

Lemma replace_css_head2 (l : string) :
  head2 l = "<l" -> head2 (replace l "style.css" "syntax.css") = "<l".
Proof.
  intros H. apply head2_inv in H as [t ->].
  rewrite !replace_other by reflexivity. apply head2_two.
Qed.

Lemma replace_hr_head2 (l : string) :
  head2 l = "<p" -> head2 (replace l "<hr/>" highlight_open) = "<p".
Proof.
  intros H. apply head2_inv in H as [t ->].
  rewrite !replace_other by reflexivity. apply head2_two.
Qed.

Lemma pending_no_lf (f : string) : pending f -> contains LF f = false.
Proof. intros [->| ->]; reflexivity. Qed.

Lemma pending_head2 (f x : string) :
  pending f -> head2 x <> "<a" -> head2 (f ++ x) <> "<a".
Proof. intros [->| ->] H; [exact H | rewrite head2_app by (simpl; lia); discriminate]. Qed.

Lemma count_line (x R : string) :
  contains LF x = false ->
  prefix_anchors (split_lines (x ++ NL ++ R))
  = (if matches anchor_prefix_re (x ++ NL) then 1 else 0) + prefix_anchors (split_lines R).
Proof. intros H. now rewrite split_lines_line, prefix_anchors_cons. Qed.

Lemma count_partial (x : string) :
  contains LF x = false -> x <> EmptyString ->
  prefix_anchors (split_lines x) = if matches anchor_prefix_re x then 1 else 0.
Proof.
  intros H Hn. rewrite split_lines_partial, prefix_anchors_cons by assumption.
  unfold prefix_anchors. simpl. lia.
Qed.

Lemma written_cons (p : string) (ps : list string) : written (p :: ps) = p ++ written ps.
Proof. reflexivity. Qed.

(** The four things the first loop can print for a line. *)
Lemma pass1_line_cases (st : p1state) (l : string) :
  fst (pass1_line st l) = l \/
  (in_content st = true /\ l = div_close /\
   fst (pass1_line st l) = div_close ++ "</div>") \/
  (head2 l = "<l" /\
   fst (pass1_line st l) = l ++ replace l "style.css" "syntax.css") \/
  (head2 l = "<p" /\
   fst (pass1_line st l) = replace l "<hr/>" highlight_open).
Proof.
  unfold pass1_line.
  destruct (matches stylesheet_re l) eqn:E1.
  { right; right; left. split; [now apply stylesheet_head2 | reflexivity]. }
  destruct (String.eqb l content_open); [now left|].
  destruct (in_content st); cbn [negb]; [|now left].
  destruct (String.eqb_spec l div_close) as [->|_].
  { right; left. now repeat split. }
  destruct (matches rawlink_re l) eqn:E2; [|now left].
  right; right; right. split; [now apply rawlink_head2 | reflexivity].
Qed.

Lemma head2_app_known (l r : string) (a b : ascii) :
  head2 l = String a (String b EmptyString) ->
  head2 (l ++ r) = String a (String b EmptyString).
Proof. intros H. apply head2_inv in H as [t ->]. apply head2_two. Qed.

Lemma app_nonempty (f x : string) : x <> EmptyString -> f ++ x <> EmptyString.
Proof. destruct f, x; simpl; congruence. Qed.

Lemma head2_nonempty (x : string) (a b : ascii) :
  head2 x = String a (String b EmptyString) -> x <> EmptyString.
Proof. intros H. apply head2_inv in H as [t ->]. discriminate. Qed.

Lemma app_nonempty_l (x r : string) : x <> EmptyString -> x ++ r <> EmptyString.
Proof. destruct x; simpl; congruence. Qed.

Lemma div_close_not_anchor : matches anchor_prefix_re div_close = false.
Proof. vm_compute. reflexivity. Qed.

(** ** The anchors read by the second loop *)

(** What the first loop writes holds as many anchor lines as what it
    read, provided no anchor line is glued to a second closing tag; [f]
    is what the loop has left unfinished before [lines]. *)
Lemma pass1_keeps_anchors (lines : list string) :
  lines_ok lines ->
  forall st f,
    pending f ->
    (f <> EmptyString ->
     match lines with
     | l :: _ => matches anchor_prefix_re l = false
     | [] => True
     end) ->
    merge_free (in_content st) lines = true ->
    prefix_anchors (split_lines (f ++ written (fst (pass1 st lines))))
    = prefix_anchors lines.
Proof.
  induction 1 as [|l [Hn Hl]|l rest [b [-> Hb]] Hr IH]; intros st f Hf Hhead Hmf.
  - destruct Hf as [->| ->]; reflexivity.
  - rewrite pass1_cons. cbn [pass1 fst]. rewrite written_cons.
    change (written []) with EmptyString. rewrite sapp_nil_r, prefix_anchors_cons.
    change (prefix_anchors []) with 0.
    assert (Hfl := pending_no_lf f Hf).
    destruct (pass1_line_cases st l) as [Hp|[(_ & -> & _)|[(Hh & Hp)|(Hh & Hp)]]];
      [ | discriminate Hl | | ]; rewrite Hp.
    + destruct Hf as [->| ->].
      * simpl. rewrite count_partial by assumption. lia.
      * rewrite (Hhead ltac:(discriminate)).
        rewrite count_partial;
          [ | rewrite contains_app, Hl; reflexivity | now apply app_nonempty ].
        rewrite not_anchor; [reflexivity|].
        rewrite head2_app by (simpl; lia). discriminate.
    + rewrite (not_anchor l) by (rewrite Hh; discriminate).
      rewrite count_partial.
      * rewrite not_anchor; [reflexivity|]. apply pending_head2; [assumption|].
        rewrite (head2_app_known _ _ _ _ Hh). discriminate.
      * rewrite !contains_app, Hfl, Hl. cbn [orb].
        apply replace_keeps_out with (String.length l); try reflexivity; try discriminate.
        assumption.
      * now apply app_nonempty, app_nonempty_l.
    + rewrite (not_anchor l) by (rewrite Hh; discriminate).
      assert (Hh' := replace_hr_head2 l Hh).
      rewrite count_partial.
      * rewrite not_anchor; [reflexivity|]. apply pending_head2; [assumption|].
        rewrite Hh'. discriminate.
      * rewrite contains_app, Hfl. cbn [orb].
        apply replace_keeps_out with (String.length l); try reflexivity; try discriminate.
        assumption.
      * apply app_nonempty. now apply head2_nonempty in Hh'.
  - rewrite pass1_cons. cbn [fst]. rewrite written_cons, prefix_anchors_cons.
    cbn [merge_free] in Hmf. apply andb_prop in Hmf as [Hm1 Hm2].
    set (st' := snd (pass1_line st (b ++ NL))) in *.
    assert (Hst : merge_free (in_content st') rest = true).
    { unfold st'. rewrite pass1_line_state. exact Hm2. }
    set (W := written (fst (pass1 st' rest))).
    assert (Hfl := pending_no_lf f Hf).
    assert (HW : prefix_anchors (split_lines W) = prefix_anchors rest).
    { apply (IH st' EmptyString); [now left | intros C; now contradiction C | exact Hst]. }
    destruct (pass1_line_cases st (b ++ NL)) as [Hp|[(Hi & Hd & Hp)|[(Hh & Hp)|(Hh & Hp)]]];
      rewrite Hp.
    + replace (f ++ (b ++ NL) ++ W) with ((f ++ b) ++ NL ++ W) by (now rewrite !sapp_assoc).
      rewrite count_line by (now rewrite contains_app, Hfl, Hb).
      rewrite HW. f_equal. destruct Hf as [->| ->]; [reflexivity|].
      rewrite (Hhead ltac:(discriminate)). rewrite not_anchor; [reflexivity|].
      rewrite sapp_assoc, head2_app by (simpl; lia). discriminate.
    + rewrite Hd in *. rewrite div_close_not_anchor.
      replace (f ++ (div_close ++ "</div>") ++ W)
        with ((f ++ "</div>") ++ NL ++ ("</div>" ++ W))
        by (unfold div_close; now rewrite !sapp_assoc).
      rewrite count_line by (destruct Hf as [->| ->]; reflexivity).
      rewrite not_anchor by (destruct Hf as [->| ->]; discriminate).
      f_equal. unfold W. apply IH; [now right | | exact Hst].
      intros _. rewrite Hi, String.eqb_refl in Hm1. simpl in Hm1.
      destruct rest as [|l2 rest]; [exact I|]. now apply negb_true_iff in Hm1.
    + rewrite (not_anchor (b ++ NL)) by (rewrite Hh; discriminate).
      assert (Hh' := replace_css_head2 _ Hh).
      rewrite replace_line in * by (try discriminate; reflexivity).
      replace (f ++ ((b ++ NL) ++ replace b "style.css" "syntax.css" ++ NL) ++ W)
        with ((f ++ b) ++ NL ++ (replace b "style.css" "syntax.css" ++ NL ++ W))
        by (now rewrite !sapp_assoc).
      rewrite count_line by (now rewrite contains_app, Hfl, Hb).
      rewrite count_line
        by (apply replace_keeps_out with (String.length b);
            try reflexivity; try discriminate; assumption).
      rewrite HW.
      rewrite (not_anchor (replace b "style.css" "syntax.css" ++ NL))
        by (rewrite Hh'; discriminate).
      rewrite (not_anchor ((f ++ b) ++ NL)); [reflexivity|].
      rewrite sapp_assoc. apply pending_head2; [assumption|]. rewrite Hh. discriminate.
    + rewrite (not_anchor (b ++ NL)) by (rewrite Hh; discriminate).
      assert (Hh' := replace_hr_head2 _ Hh).
      rewrite replace_line in * by (try discriminate; reflexivity).
      replace (f ++ (replace b "<hr/>" highlight_open ++ NL) ++ W)
        with ((f ++ replace b "<hr/>" highlight_open) ++ NL ++ W)
        by (now rewrite !sapp_assoc).
      rewrite count_line.
      * rewrite HW. rewrite not_anchor; [reflexivity|].
        rewrite sapp_assoc. apply pending_head2; [assumption|]. rewrite Hh'. discriminate.
      * rewrite contains_app, Hfl. cbn [orb].
        apply replace_keeps_out with (String.length b);
          try reflexivity; try discriminate; assumption.
Qed.

(** ** Reading in text mode *)

Lemma universal_newlines_no_cr (s : string) :
  contains CR (universal_newlines s) = false.
Proof.
  induction s as [|c s IH]; [reflexivity|]. cbn [universal_newlines].
  destruct (Ascii.eqb c CR) eqn:Ec.
  - change (contains CR (String LF ?x)) with (contains CR x).
    destruct s as [|c' s']; [reflexivity|].
    destruct (Ascii.eqb_spec c' LF) as [->|_]; [|exact IH].
    exact IH.
  - cbn [contains]. now rewrite Ec, IH.
Qed.

Lemma universal_newlines_id (s : string) :
  contains CR s = false -> universal_newlines s = s.
Proof.
  induction s as [|c s IH]; intros H; [reflexivity|].
  cbn [contains] in H. apply orb_false_iff in H as [Hc H].
  cbn [universal_newlines]. now rewrite Hc, IH.
Qed.

Lemma written_split_lines (s : string) : written (split_lines s) = s.
Proof.
  induction s as [|c s IH]; [reflexivity|]. cbn [split_lines].
  destruct (Ascii.eqb_spec c LF) as [->|_].
  - rewrite written_cons, IH. reflexivity.
  - destruct (split_lines s) as [|h t].
    + simpl in IH. subst s. reflexivity.
    + rewrite written_cons in *. simpl. now rewrite IH.
Qed.

Lemma readlines_ok (data : string) : lines_ok (readlines data).
Proof. apply split_lines_ok. Qed.

(** A page with a carriage return before each line feed is read as the
    page without them: its closing tag is the line the first loop looks
    for, and the anchor line after it is glued to the second tag. *)
Lemma readlines_merged_page_crlf :
  readlines merged_page_crlf = readlines merged_page /\
  merge_free false (readlines merged_page_crlf) = false.
Proof. split; vm_compute; reflexivity. Qed.

(** What iteration yields holds no carriage return. *)
Lemma readlines_no_cr (data : string) : contains CR (written (readlines data)) = false.
Proof. unfold readlines. rewrite written_split_lines. apply universal_newlines_no_cr. Qed.

(** A text without carriage return is read as it is. *)
Lemma readlines_no_cr_id (s : string) :
  contains CR s = false -> readlines s = split_lines s.
Proof. intros H. unfold readlines. now rewrite universal_newlines_id. Qed.

(** The first loop brings in no carriage return. *)
Lemma pass1_no_cr (lines : list string) :
  forall st,
    contains CR (written lines) = false ->
    contains CR (written (fst (pass1 st lines))) = false.
Proof.
  induction lines as [|l lines IH]; intros st H; [reflexivity|].
  rewrite written_cons, contains_app in H. apply orb_false_iff in H as [Hl H].
  rewrite pass1_cons. cbn [fst]. rewrite written_cons, contains_app, (IH _ H), orb_false_r.
  destruct (pass1_line_cases st l) as [->|[(_ & -> & ->)|[(_ & ->)|(_ & ->)]]].
  - exact Hl.
  - reflexivity.
  - rewrite contains_app, Hl. cbn [orb].
    apply replace_keeps_out with (String.length l); try reflexivity; try discriminate.
    exact Hl.
  - apply replace_keeps_out with (String.length l); try reflexivity; try discriminate.
    exact Hl.
Qed.

(** What the second loop reads has as many anchor lines as what the first
    loop read, provided no anchor line is glued to a second closing tag. *)
Lemma rewritten_anchors (data : string) :
  merge_free false (readlines data) = true ->
  prefix_anchors (readlines (written (fst (pass1 p1_init (readlines data)))))
  = prefix_anchors (readlines data).
Proof.
  intros Hm.
  rewrite (readlines_no_cr_id (written (fst (pass1 p1_init (readlines data)))))
    by (apply pass1_no_cr, readlines_no_cr).
  apply (pass1_keeps_anchors (readlines data) (readlines_ok data) p1_init EmptyString).
  - now left.
  - intros C. now contradiction C.
  - exact Hm.
Qed.

(* ================================================================= *)
(** * The claims of the specification *)

(** C1.  The status of a walk is the status of the entry processed last:
    in [tree_masked] the first page cannot be opened and [highlight_file]
    returns [FAILURE] for it, the second page succeeds, and both the walk
    and [main] return [SUCCESS]. *)
Theorem C1_later_success_masks_failure :
  Sample.highlight_file "root/a.c.html" Unreadable
  = (Ret FAILURE, Unreadable, [FailedToOpen "root/a.c.html"]) /\
  Sample.traverse_repository "root" tree_masked
  = (Ret SUCCESS, tree_masked,
     [Walk "root"; Call "root/a.c.html"; Stderr (FailedToOpen "root/a.c.html");
      Call "root/b.c.html"]) /\
  fst (fst (Sample.main ["stagit-highlight"; "root"] (Some tree_masked))) = Ret SUCCESS.
Proof. repeat split; vm_compute; reflexivity. Qed.

(** C2, as the code has it.  For a line that matches the anchor pattern,
    the first loop appends the captured rest of the line, as it stands in
    the page and still escaped, and a line feed to the code buffer, and
    prints the line as it was read; the buffer is passed through
    [html.unescape] once, when it is handed to the highlighter. *)
Theorem C2_code_collected_still_escaped
    (Lexer : Type) (highlight : string -> Lexer -> string)
    (unescape : string -> string) (lexer : Lexer)
    (st : p1state) (line : string) (m : captures) :
  re_match anchor_code_re line = Some m ->
  code (snd (pass1_line st line)) = code st ++ group m 1 ++ NL /\
  fst (pass1_line st line) = line /\
  forall buffer,
    codelines_of Lexer highlight unescape buffer lexer
    = split_nl (removeprefix (highlight (unescape buffer) lexer) highlight_pre).
Proof.
  intros H. split; [|split].
  - rewrite pass1_line_state. simpl. unfold collect. now rewrite H.
  - apply pass1_line_anchor. rewrite <- anchor_patterns_agree.
    unfold matches. now rewrite H.
  - reflexivity.
Qed.

Lemma C2_witness :
  re_match anchor_code_re escaped_line = Some [(1, "&lt;")] /\
  (code (snd (pass1_line p1_init escaped_line))
   = code p1_init ++ group [(1, "&lt;")] 1 ++ NL /\
   fst (pass1_line p1_init escaped_line) = escaped_line /\
   forall buffer,
     codelines_of unit Sample.highlight Sample.unescape buffer tt
     = split_nl (removeprefix (Sample.highlight (Sample.unescape buffer) tt) highlight_pre)).
Proof.
  assert (H : re_match anchor_code_re escaped_line = Some [(1, "&lt;")])
    by (vm_compute; reflexivity).
  split; [exact H|].
  exact (C2_code_collected_still_escaped unit Sample.highlight Sample.unescape tt
           p1_init escaped_line [(1, "&lt;")] H).
Defined.

(** C2, as the specification states it, fails on [escaped_line]: the captured rest is
    the five characters of the reference, and what is appended is those
    five characters and a line feed, not the less-than sign that any
    decoder of the reference gives. *)
Lemma C2_counterexample :
  re_match anchor_code_re escaped_line = Some [(1, "&lt;")] /\
  collect EmptyString escaped_line = "&lt;" ++ NL /\
  Sample.unescape "&lt;" = "<" /\
  (forall unescape : string -> string,
     unescape "&lt;" = "<" ->
     collect EmptyString escaped_line <> unescape "&lt;" ++ NL).
Proof.
  repeat split; try (vm_compute; reflexivity).
  intros unescape ->. vm_compute. discriminate.
Qed.

(** C3, as the code has it.  The line that is exactly the content opener is
    printed unchanged, and every line after it that is exactly the closing
    tag, however many lines or closing tags come in between, is printed
    followed by one more closing tag: the flag is never cleared.  A
    closing tag read before any opener is printed as it was read. *)
Theorem C3_inside_content_to_the_end (st : p1state) (pre mid post : list string) :
  nth_error (fst (pass1 st (pre ++ content_open :: mid ++ div_close :: post)))
            (List.length pre)
  = Some content_open /\
  nth_error (fst (pass1 st (pre ++ content_open :: mid ++ div_close :: post)))
            (List.length pre + 1 + List.length mid)
  = Some (div_close ++ "</div>") /\
  (in_content st = false -> ~ In content_open pre ->
   forall k, nth_error pre k = Some div_close ->
     nth_error (fst (pass1 st (pre ++ content_open :: mid ++ div_close :: post))) k
     = Some div_close).
Proof.
  split; [|split]; [| |intros Hi Hn k Hk; now apply pass1_outside].
  all: rewrite pass1_app; cbn [fst]; set (st1 := snd (pass1 st pre));
    rewrite pass1_cons, pass1_line_content_open; cbn [fst snd].
  - rewrite nth_error_app2 by (rewrite pass1_length; lia).
    rewrite pass1_length, Nat.sub_diag. reflexivity.
  - rewrite nth_error_app2 by (rewrite pass1_length; lia).
    rewrite pass1_length.
    replace (List.length pre + 1 + List.length mid - List.length pre)
      with (S (List.length mid)) by lia.
    cbn [nth_error]. rewrite pass1_app. cbn [fst].
    rewrite nth_error_app2 by (rewrite pass1_length; lia).
    rewrite pass1_length, Nat.sub_diag, pass1_cons. cbn [fst nth_error].
    f_equal. apply pass1_line_div_close. now apply pass1_in_content_mono.
Qed.

(** C3, as the specification states it, fails: a closing tag that comes after the one
    that closed the content division is doubled as well. *)
Lemma C3_counterexample :
  fst (pass1 p1_init [content_open; div_close; "</body>" ++ NL; div_close])
  = [content_open; div_close ++ "</div>"; "</body>" ++ NL; div_close ++ "</div>"].
Proof. vm_compute. reflexivity. Qed.




(** C5.  When the second loop runs to its end: the cursor has advanced
    once for each line that matches the anchor-prefix pattern; such a line
    is printed as its own anchor prefix followed by the highlighted line
    under the cursor, which is the number of matching lines before it,
    and a line feed; every other line is printed as it was read. *)
Theorem C5_pass2_splices_in_order (codelines lines pieces : list string) (j : nat) :
  pass2 codelines lines 0 = (pieces, j, None) ->
  j = prefix_anchors lines /\
  forall k line, nth_error lines k = Some line ->
    match re_match anchor_prefix_re line with
    | Some m =>
        exists h rest,
          line = group m 1 ++ rest /\
          nth_error codelines (prefix_anchors (firstn k lines)) = Some h /\
          nth_error pieces k = Some (group m 1 ++ h ++ NL)
    | None => nth_error pieces k = Some line
    end.
Proof. intros H. exact (pass2_splices_from codelines lines 0 pieces j H). Qed.

Lemma C5_witness :
  pass2 ["H1"; "H2"; "</pre></div>"]
        [anchor_line "1" "a"; "</pre>" ++ NL; anchor_line "2" "b"] 0
  = ([anchor "1" ++ "H1" ++ NL; "</pre>" ++ NL; anchor "2" ++ "H2" ++ NL], 2, None) /\
  (2 = prefix_anchors [anchor_line "1" "a"; "</pre>" ++ NL; anchor_line "2" "b"] /\
   forall k line,
     nth_error [anchor_line "1" "a"; "</pre>" ++ NL; anchor_line "2" "b"] k = Some line ->
     match re_match anchor_prefix_re line with
     | Some m =>
         exists h rest,
           line = group m 1 ++ rest /\
           nth_error ["H1"; "H2"; "</pre></div>"]
             (prefix_anchors
                (firstn k [anchor_line "1" "a"; "</pre>" ++ NL; anchor_line "2" "b"]))
           = Some h /\
           nth_error [anchor "1" ++ "H1" ++ NL; "</pre>" ++ NL; anchor "2" ++ "H2" ++ NL] k
           = Some (group m 1 ++ h ++ NL)
     | None =>
         nth_error [anchor "1" ++ "H1" ++ NL; "</pre>" ++ NL; anchor "2" ++ "H2" ++ NL] k
         = Some line
     end).
Proof.
  split; [vm_compute; reflexivity|].
  apply (C5_pass2_splices_in_order ["H1"; "H2"; "</pre></div>"]
           [anchor_line "1" "a"; "</pre>" ++ NL; anchor_line "2" "b"]).
  vm_compute. reflexivity.
Defined.

(** C6, as the code has it.  When no anchor line comes directly after a
    closing-tag line that is read inside the content division, and there
    are at least as many highlighted lines as anchor lines, the second loop
    runs to its end and its cursor stops at the number of lines that
    matched the anchor pattern in the first loop. *)
Theorem C6_anchor_counts_agree (data : string) (codelines : list string) :
  merge_free false (readlines data) = true ->
  code_anchors (readlines data) <= List.length codelines ->
  exists pieces,
    pass2 codelines (readlines (written (fst (pass1 p1_init (readlines data))))) 0
    = (pieces, code_anchors (readlines data), None).
Proof.
  intros Hm Hc.
  assert (E : prefix_anchors (readlines (written (fst (pass1 p1_init (readlines data)))))
              = code_anchors (readlines data)).
  { rewrite code_anchors_prefix_anchors. now apply rewritten_anchors. }
  rewrite <- E in *. now apply (pass2_completes codelines _ 0).
Qed.

Lemma C6_witness :
  merge_free false (readlines fixture_page) = true /\
  code_anchors (readlines fixture_page) <= List.length ["H1"; "H2"; "</pre></div>"] /\
  exists pieces,
    pass2 ["H1"; "H2"; "</pre></div>"]
          (readlines (written (fst (pass1 p1_init (readlines fixture_page))))) 0
    = (pieces, code_anchors (readlines fixture_page), None).
Proof.
  assert (Hm : merge_free false (readlines fixture_page) = true) by (vm_compute; reflexivity).
  assert (Hc : code_anchors (readlines fixture_page)
               <= List.length ["H1"; "H2"; "</pre></div>"]) by (vm_compute; lia).
  split; [exact Hm|]. split; [exact Hc|].
  exact (C6_anchor_counts_agree fixture_page ["H1"; "H2"; "</pre></div>"] Hm Hc).
Defined.

(** C6, as the specification states it, fails on [merged_page]: the first loop takes
    code from one anchor line, but it prints the second closing tag
    without a line feed, the anchor line that follows is written onto the
    same line, and the second loop, which finds no line that begins with
    an anchor, consumes nothing.  It also fails when the highlighted
    lines run out: of two anchor lines only one is served. *)
Lemma C6_counterexample :
  (code_anchors (readlines merged_page) = 1 /\
   code (snd (pass1 p1_init (readlines merged_page))) = "x" ++ NL /\
   pass2 ["H1"; "</pre></div>"; EmptyString]
         (readlines (written (fst (pass1 p1_init (readlines merged_page))))) 0
   = ([content_open; div_close; "</div>" ++ anchor_line "1" "x"], 0, None)) /\
  (code_anchors (readlines two_lines_page) = 2 /\
   pass2 ["H1"]
         (readlines (written (fst (pass1 p1_init (readlines two_lines_page))))) 0
   = ([anchor "1" ++ "H1" ++ NL], 1, Some IndexError)).
Proof. repeat split; vm_compute; reflexivity. Qed.

(** C7.  The second loop does not check the cursor against the length of
    the highlighted lines: whenever there are fewer of them than lines
    that match the anchor pattern, the loop stops with an [IndexError],
    raised by the access right after the last highlighted line. *)
Theorem C7_cursor_unguarded (codelines lines : list string) :
  List.length codelines < prefix_anchors lines ->
  exists pieces,
    pass2 codelines lines 0 = (pieces, List.length codelines, Some IndexError).
Proof. intros H. apply pass2_runs_out; lia. Qed.

Lemma C7_witness :
  List.length ["only one"] < prefix_anchors [anchor_line "1" "a"; anchor_line "2" "b"] /\
  exists pieces,
    pass2 ["only one"] [anchor_line "1" "a"; anchor_line "2" "b"] 0
    = (pieces, List.length ["only one"], Some IndexError).
Proof.
  assert (H : List.length ["only one"]
              < prefix_anchors [anchor_line "1" "a"; anchor_line "2" "b"])
    by (vm_compute; lia).
  split; [exact H|].
  exact (C7_cursor_unguarded ["only one"] [anchor_line "1" "a"; anchor_line "2" "b"] H).
Defined.

(** C8.  When the lexer lookup does not recognise the path without its
    [.html] suffix, [highlight_file] returns [SUCCESS] at once: the page is
    left as it was, whatever it holds and whether or not it could be read,
    and nothing is reported. *)
Theorem C8_unrecognised_file_untouched
    (Lexer : Type) (get_lexer : string -> option Lexer)
    (highlight : string -> Lexer -> string) (unescape : string -> string)
    (pathname : string) (c : content) :
  get_lexer (removesuffix pathname ".html") = None ->
  highlight_file Lexer get_lexer highlight unescape pathname c = (Ret SUCCESS, c, []).
Proof. intros H. unfold highlight_file. now rewrite H. Qed.

Lemma C8_witness :
  Sample.get_lexer (removesuffix "root/README.html" ".html") = None /\
  Sample.highlight_file "root/README.html" (Readable fixture_page)
  = (Ret SUCCESS, Readable fixture_page, []).
Proof.
  split; [reflexivity|].
  apply (C8_unrecognised_file_untouched unit Sample.get_lexer Sample.highlight
           Sample.unescape "root/README.html" (Readable fixture_page)).
  reflexivity.
Defined.

(** C9, as the code has it.  In a directory that lists a subdirectory [X]
    and a file [X.html], [highlight_file] is never called on [X.html];
    and when the walk returns, it has entered [X] and has called
    [highlight_file] on every listed file whose name without the suffix
    is neither empty nor a dot name nor the name of a listed directory. *)
Theorem C9_directory_index_skipped
    (Lexer : Type) (get_lexer : string -> option Lexer)
    (highlight : string -> Lexer -> string) (unescape : string -> string)
    (pathname X : string) (entries sub : list (string * node)) (c : content)
    (o : outcome) (d' : node) (ev : list event) :
  valid_entries entries = true ->
  NoDup (map fst entries) ->
  In (X, Dir sub) entries ->
  In (X ++ ".html", File c) entries ->
  traverse_repository Lexer get_lexer highlight unescape pathname (Dir entries)
  = (o, d', ev) ->
  ~ In (Call (join pathname (X ++ ".html"))) ev /\
  forall r, o = Ret r ->
    In (Walk (join pathname X)) ev /\
    forall i c', In (i, File c') entries ->
      names_directory entries (removesuffix i ".html") = false ->
      In (Call (join pathname i)) ev.
Proof.
  intros Hv Hd HX HXh H. rewrite traverse_dir in H.
  destruct (loop _ _ _ _ pathname entries _ SUCCESS entries) as [[o1 es1] e1] eqn:E.
  injection H as <- <- <-.
  destruct (valid_entries_in _ _ _ Hv HXh) as [HvXh _].
  split.
  - intros [[=]|Hp].
    eapply (loop_calls _ _ _ _ pathname entries _
              (fun i p => exists t, p = join pathname EmptyString ++ i ++ "/" ++ t))
      in E; [| |exact Hp].
    + destruct E as [(i & c0 & Hin & Hj & Hnd)|(i & sub0 & _ & t & Hj)].
      * destruct (valid_entries_in _ _ _ Hv Hin) as [Hvi _].
        rewrite (join_valid _ _ HvXh), (join_valid _ _ Hvi) in Hj.
        apply sapp_inv_head in Hj. subst i.
        rewrite (isdir_index pathname entries sub X HvXh) in Hnd; [discriminate|].
        now apply lookup_in.
      * rewrite (join_valid _ _ HvXh) in Hj. apply sapp_inv_head in Hj.
        apply valid_name_inv in HvXh as [_ Hs]. rewrite Hj in Hs.
        rewrite !contains_app in Hs. simpl in Hs. rewrite orb_true_r in Hs. discriminate.
    + intros i n o2 n2 ev2 p2 Hin Hw Hp2.
      destruct (valid_entries_in _ _ _ Hv Hin) as [Hvi Hvn].
      destruct (traverse_calls_below _ _ _ _ n Hvn _ _ _ _ _ Hw Hp2) as [t ->].
      exists t. rewrite join_subdirectory by assumption. now rewrite !sapp_assoc.
  - intros r ->.
    apply loop_ret_visits in E as [Ed Ef].
    + split.
      * right. now apply Ed with sub.
      * intros i c' Hin Hn. right. apply Ef with c'; [assumption|].
        destruct (valid_entries_in _ _ _ Hv Hin) as [Hvi _].
        now rewrite isdir_removesuffix.
    + intros p es o2 n2 ev2 Hw. rewrite traverse_dir in Hw.
      destruct (loop _ _ _ _ p es _ SUCCESS es) as [[? ?] ?].
      injection Hw as <- <- <-. now left.
Qed.

Lemma C9_witness :
  valid_entries listing_index = true /\
  In ("X", Dir [("y.c.html", File (Readable EmptyString))]) listing_index /\
  In ("X" ++ ".html", File (Readable EmptyString)) listing_index /\
  Sample.traverse_repository "root" (Dir listing_index)
  = (Ret SUCCESS, tree_index,
     [Walk "root"; Walk "root/X"; Call "root/X/y.c.html"; Call "root/z.c.html"]) /\
  (~ In (Call (join "root" ("X" ++ ".html")))
        [Walk "root"; Walk "root/X"; Call "root/X/y.c.html"; Call "root/z.c.html"] /\
   forall r, Ret SUCCESS = Ret r ->
     In (Walk (join "root" "X"))
        [Walk "root"; Walk "root/X"; Call "root/X/y.c.html"; Call "root/z.c.html"] /\
     forall i c', In (i, File c') listing_index ->
       names_directory listing_index (removesuffix i ".html") = false ->
       In (Call (join "root" i))
          [Walk "root"; Walk "root/X"; Call "root/X/y.c.html"; Call "root/z.c.html"]).
Proof.
  assert (Hv : valid_entries listing_index = true) by reflexivity.
  assert (HX : In ("X", Dir [("y.c.html", File (Readable EmptyString))]) listing_index)
    by (left; reflexivity).
  assert (HXh : In ("X" ++ ".html", File (Readable EmptyString)) listing_index)
    by (right; left; reflexivity).
  assert (Hd : NoDup (map fst listing_index)).
  { repeat constructor; simpl; intuition discriminate. }
  assert (Hw : Sample.traverse_repository "root" (Dir listing_index)
               = (Ret SUCCESS, tree_index,
                  [Walk "root"; Walk "root/X"; Call "root/X/y.c.html"; Call "root/z.c.html"]))
    by (vm_compute; reflexivity).
  repeat (split; [assumption|]).
  exact (C9_directory_index_skipped unit Sample.get_lexer Sample.highlight Sample.unescape
           "root" "X" listing_index [("y.c.html", File (Readable EmptyString))]
           (Readable EmptyString) (Ret SUCCESS) tree_index _ Hv Hd HX HXh Hw).
Defined.

(** C9, as the specification states it, fails in two ways.  A file named by the
    suffix alone is skipped although no listed directory has the empty
    name, because the path without the suffix is the directory being
    walked; and a page that is not UTF-8 stops the walk, so that a page
    listed after it is not reached although it is no directory index. *)
Lemma C9_counterexample :
  (removesuffix ".html" ".html" = EmptyString /\
   lookup EmptyString listing_suffix_only = None /\
   isdir "root" listing_suffix_only (removesuffix (join "root" ".html") ".html") = true /\
   Sample.traverse_repository "root" tree_suffix_only
   = (Ret SUCCESS, tree_suffix_only, [Walk "root"; Walk "root/X"])) /\
  (lookup (removesuffix "b.c.html" ".html") listing_undecodable = None /\
   Sample.traverse_repository "root" tree_undecodable
   = (Raise UnicodeDecodeError, tree_undecodable,
      [Walk "root"; Walk "root/X"; Call "root/a.c.html"])).
Proof. repeat split; vm_compute; reflexivity. Qed.

(** C10.  The minimal page, under a recognised name: when the highlighter's
    output for the two lines of code splits into [h1], [h2] and whatever
    closes the block, the page becomes [fixture_result h1 h2]: both
    stylesheet links, the wrapper opened on the raw-link line and closed
    by the doubled closing tag, and [h1], [h2] after the two anchors. *)
Theorem C10_minimal_fixture
    (Lexer : Type) (get_lexer : string -> option Lexer)
    (highlight : string -> Lexer -> string) (unescape : string -> string)
    (pathname : string) (lexer : Lexer) (h1 h2 : string) (tl : list string) :
  get_lexer (removesuffix pathname ".html") = Some lexer ->
  unescape fixture_code = fixture_code ->
  split_nl (removeprefix (highlight fixture_code lexer) highlight_pre) = h1 :: h2 :: tl ->
  highlight_file Lexer get_lexer highlight unescape pathname (Readable fixture_page)
  = (Ret SUCCESS, Readable (fixture_result h1 h2), []).
Proof.
  intros Hl Hu Hh. unfold highlight_file, rewrite_page. rewrite Hl.
  let P := eval vm_compute in (fst (pass1 p1_init (readlines fixture_page))) in
  assert (E : pass1 p1_init (readlines fixture_page) = (P, mk_p1 fixture_code true))
    by (vm_compute; reflexivity).
  rewrite E. unfold codelines_of. cbn [code]. rewrite Hu, Hh.
  match goal with
  | |- context [readlines (written ?ps)] =>
      let v := eval vm_compute in (readlines (written ps)) in
      replace (readlines (written ps)) with v by (vm_compute; reflexivity)
  end.
  match goal with
  | |- context [pass2 ?cl ?ls 0] =>
      assert (E2 : exists ps, pass2 cl ls 0 = (ps, 2, None)
                              /\ written ps = fixture_result h1 h2)
  end.
  { eexists. split.
    - repeat first
        [ eapply pass2_other; [vm_compute; reflexivity|]
        | eapply pass2_anchor; [vm_compute; reflexivity | reflexivity |] ].
      reflexivity.
    - reflexivity. }
  destruct E2 as (ps & -> & ->). reflexivity.
Qed.

Lemma C10_witness :
  Sample.get_lexer (removesuffix "root/x.c.html" ".html") = Some tt /\
  Sample.unescape fixture_code = fixture_code /\
  Sample.highlight_file "root/x.c.html" (Readable fixture_page)
  = (Ret SUCCESS, Readable (fixture_result "<span></span>int x = 1;" "int x = 2;"), []).
Proof.
  split; [reflexivity|]. split; [reflexivity|].
  apply (C10_minimal_fixture unit Sample.get_lexer Sample.highlight Sample.unescape
           "root/x.c.html" tt "<span></span>int x = 1;" "int x = 2;"
           ["</pre></div>"; EmptyString]); reflexivity.
Defined.

(* ================================================================= *)
(** * Further properties of the two loops *)

(** ** Pages without anchors *)













(** ** What the two anchor patterns capture *)

Lemma star_rounds_ok_ext (r : regex) (A B : Type)
    (k1 : string -> captures -> option A) (k2 : string -> captures -> option B) :
  (forall s g1 g2, ok (k1 s g1) = ok (k2 s g2)) ->
  forall fuel s g1 g2,
    ok (star_rounds (rmatch r) k1 fuel s g1) = ok (star_rounds (rmatch r) k2 fuel s g2).
Proof.
  intros H. induction fuel as [|fuel IHf]; intros s g1 g2; simpl; [apply H|].
  assert (E : ok (rmatch r s g1
                   (fun s' gs' => if Nat.ltb (String.length s') (String.length s)
                                  then star_rounds (rmatch r) k1 fuel s' gs' else None))
            = ok (rmatch r s g2
                   (fun s' gs' => if Nat.ltb (String.length s') (String.length s)
                                  then star_rounds (rmatch r) k2 fuel s' gs' else None))).
  { apply rmatch_ok_ext. intros s' g1' g2'.
    destruct (Nat.ltb (String.length s') (String.length s)); [apply IHf | reflexivity]. }
  destruct (rmatch r s g1 _); destruct (rmatch r s g2 _); simpl in *;
    try reflexivity; try discriminate; apply H.
Qed.

(** Two continuations that succeed at the same places are called by a
    match at the same place. *)
Lemma rmatch_same_place (r : regex) :
  forall (A B : Type) (k1 : string -> captures -> option A)
         (k2 : string -> captures -> option B),
    (forall s g1 g2, ok (k1 s g1) = ok (k2 s g2)) ->
    forall s g1 g2 a,
      rmatch r s g1 k1 = Some a ->
      exists pre s' g1' g2',
        s = pre ++ s' /\ k1 s' g1' = Some a /\ rmatch r s g2 k2 = k2 s' g2'.
Proof.
  induction r as [l| | |r1 IH1 r2 IH2|r1 IH1|n r1 IH1|]; intros A B k1 k2 H s g1 g2 a; simpl.
  - destruct (strip_prefix l s) as [s'|] eqn:E; [|discriminate].
    intros Ha. exists l, s', g1, g2. repeat split; [now apply strip_prefix_some | assumption].
  - destruct s as [|c s]; [discriminate|]. destruct (Ascii.eqb c LF); [discriminate|].
    intros Ha. destruct (skip_continuation_split s) as (d & Hd & _).
    exists (String c d), (skip_continuation s), g1, g2.
    split; [simpl; now f_equal|]. now split.
  - destruct s as [|c s]; [discriminate|]. destruct (is_digit c); [|discriminate].
    intros Ha. now exists (String c EmptyString), s, g1, g2.
  - intros Ha.
    apply (IH1 A B _ (fun s' gs' => rmatch r2 s' gs' k2)) with (g2 := g2) in Ha
      as (p1 & s1 & g1' & g2' & -> & Ha & E1).
    2:{ intros s0 x y. now apply rmatch_ok_ext. }
    apply (IH2 A B k1 k2 H) with (g2 := g2') in Ha as (p2 & s2 & g1'' & g2'' & -> & Ha & E2).
    exists (p1 ++ p2), s2, g1'', g2''. repeat split;
      [now rewrite sapp_assoc | assumption | now rewrite E1].
  - generalize (String.length s) as fuel. intros fuel; revert s g1 g2.
    induction fuel as [|fuel IHf]; intros s g1 g2; simpl.
    + intros Ha. now exists EmptyString, s, g1, g2.
    + assert (Eok := rmatch_ok_ext r1 A B
                (fun s' gs' => if Nat.ltb (String.length s') (String.length s)
                               then star_rounds (rmatch r1) k1 fuel s' gs' else None)
                (fun s' gs' => if Nat.ltb (String.length s') (String.length s)
                               then star_rounds (rmatch r1) k2 fuel s' gs' else None)).
      assert (Hc : forall s0 x y,
                 ok (if Nat.ltb (String.length s0) (String.length s)
                     then star_rounds (rmatch r1) k1 fuel s0 x else None)
                 = ok (if Nat.ltb (String.length s0) (String.length s)
                       then star_rounds (rmatch r1) k2 fuel s0 y else None)).
      { intros s0 x y. destruct (Nat.ltb _ _); [|reflexivity].
        now apply star_rounds_ok_ext. }
      specialize (Eok Hc s g1 g2).
      destruct (rmatch r1 s g1 _) as [b|] eqn:E.
      * intros [= ->].
        apply (IH1 A B _ (fun s' gs' => if Nat.ltb (String.length s') (String.length s)
                                        then star_rounds (rmatch r1) k2 fuel s' gs' else None)
                 Hc) with (g2 := g2) in E as (p1 & s1 & g1' & g2' & -> & E & E1).
        destruct (Nat.ltb (String.length s1) (String.length (p1 ++ s1))); [|discriminate].
        apply IHf with (g2 := g2') in E as (p2 & s2 & g1'' & g2'' & -> & E & E2).
        exists (p1 ++ p2), s2, g1'', g2''. repeat split;
          [now rewrite sapp_assoc | assumption |].
        rewrite E1, E2. assert (Hk := H s2 g1'' g2''). rewrite E in Hk.
        now destruct (k2 s2 g2'').
      * intros Ha. exists EmptyString, s, g1, g2. repeat split; [assumption|].
        destruct (rmatch r1 s g2 _); [discriminate | reflexivity].
  - intros Ha.
    apply (IH1 A B _ (fun s' gs' => k2 s' (set_group n (consumed s s') gs')))
      with (g2 := g2) in Ha as (p1 & s1 & g1' & g2' & -> & Ha & E1).
    2:{ intros s0 x y. apply H. }
    now exists p1, s1, (set_group n (consumed (p1 ++ s1) s1) g1'),
               (set_group n (consumed (p1 ++ s1) s1) g2').
  - destruct (String.eqb s EmptyString || String.eqb s NL); [|discriminate].
    intros Ha. now exists EmptyString, s, g1, g2.
Qed.

(** A string is a stretch without line feed followed by nothing or by a
    line feed. *)
Lemma split_at_line_feed (s : string) :
  exists b t, s = b ++ t /\ contains LF b = false /\
              (t = EmptyString \/ exists t', t = String LF t').
Proof.
  induction s as [|c s (b & t & -> & Hb & Ht)].
  - exists EmptyString, EmptyString. split; [reflexivity|]. split; [reflexivity | now left].
  - destruct (Ascii.eqb_spec c LF) as [->|Hc].
    + exists EmptyString, (String LF (b ++ t)).
      split; [reflexivity|]. split; [reflexivity|]. right. now eexists.
    + exists (String c b), t. split; [reflexivity|]. split; [|assumption].
      simpl. rewrite Hb. apply Ascii.eqb_neq in Hc. now rewrite Hc.
Qed.

Lemma rmatch_star {A : Type} (r : regex) (s : string) (gs : captures)
    (k : string -> captures -> option A) :
  rmatch (Star r) s gs k = star_rounds (rmatch r) k (String.length s) s gs.
Proof. reflexivity. Qed.

(** The bytes skipped after a character are skipped alike when a line
    feed or nothing follows the stretch they are in. *)
Lemma skip_continuation_app (b t : string) :
  (t = EmptyString \/ exists t', t = String LF t') ->
  skip_continuation (b ++ t) = skip_continuation b ++ t.
Proof.
  intros Ht. induction b as [|c b IH].
  - destruct Ht as [->|[t' ->]]; reflexivity.
  - change (String c b ++ t) with (String c (b ++ t)). cbn [skip_continuation].
    destruct (is_continuation c); [exact IH | reflexivity].
Qed.

Lemma skip_continuation_no_line_feed (b : string) :
  contains LF b = false -> contains LF (skip_continuation b) = false.
Proof.
  intros H. destruct (skip_continuation_split b) as (d & Hd & _).
  rewrite Hd, contains_app in H. now apply orb_false_iff in H as [_ H].
Qed.

(** The repeated dot takes everything up to the line feed. *)
Lemma star_dot_greedy {A : Type} (k : string -> captures -> option A) (t : string) :
  (forall s g, ok (k s g) = true) ->
  (t = EmptyString \/ exists t', t = String LF t') ->
  forall fuel b gs,
    contains LF b = false -> String.length b <= fuel ->
    star_rounds (rmatch Dot) k fuel (b ++ t) gs = k t gs.
Proof.
  intros Hk Ht. induction fuel as [|fuel IH]; intros b gs Hb Hf.
  - destruct b; [reflexivity | simpl in Hf; lia].
  - destruct b as [|c b].
    + simpl. destruct Ht as [->|[t' ->]]; reflexivity.
    + simpl in Hb. apply orb_false_iff in Hb as [Hc Hb].
      change (String c b ++ t) with (String c (b ++ t)). cbn [star_rounds rmatch].
      rewrite Hc, (skip_continuation_app b t Ht).
      assert (L := skip_continuation_length b).
      replace (Nat.ltb (String.length (skip_continuation b ++ t))
                       (String.length (String c (b ++ t)))) with true
        by (symmetry; apply Nat.ltb_lt; rewrite !slength_app; simpl;
            rewrite slength_app; lia).
      rewrite IH by (try (now apply skip_continuation_no_line_feed); simpl in Hf; lia).
      specialize (Hk t gs). now destruct (k t gs).
Qed.

Lemma anchor_line_parts (line : string) (m1 : captures) :
  re_match anchor_code_re line = Some m1 ->
  exists m2 tail,
    re_match anchor_prefix_re line = Some m2 /\
    line = group m2 1 ++ group m1 1 ++ tail /\
    contains LF (group m1 1) = false /\
    (tail = EmptyString \/ exists t', tail = String LF t').
Proof.
  unfold re_match, anchor_code_re, anchor_prefix_re.
  rewrite rmatch_seq, rmatch_group. intros H.
  apply (rmatch_same_place anchor_head _ _ _
           (fun s' gs' => Some (set_group 1 (consumed line s') gs'))) with (g2 := [])
    in H as (pre & s' & g1 & g2 & -> & H & E).
  2:{ intros s g1 g2. rewrite rmatch_group. simpl. now apply star_rounds_total. }
  rewrite rmatch_group, rmatch_star in H.
  destruct (split_at_line_feed s') as (b & t & -> & Hb & Ht).
  rewrite star_dot_greedy in H; try assumption; try reflexivity.
  2:{ rewrite slength_app. lia. }
  injection H as <-.
  exists (set_group 1 (consumed (pre ++ b ++ t) (b ++ t)) g2), t.
  split; [exact E|]. unfold group. rewrite !get_set_group, !consumed_app.
  split; [reflexivity|]. split; assumption.
Qed.

(** An anchor line is its anchor, as the second loop keeps it, followed
    by the code the first loop takes from it, followed by what is left of
    the line, which is nothing or begins with the line feed; the code
    taken holds no line feed. *)
Theorem anchor_line_splits (line : string) (m1 : captures) :
  re_match anchor_code_re line = Some m1 ->
  exists m2 tail,
    re_match anchor_prefix_re line = Some m2 /\
    line = group m2 1 ++ group m1 1 ++ tail /\
    contains LF (group m1 1) = false /\
    (tail = EmptyString \/ exists t', tail = String LF t').
Proof. apply anchor_line_parts. Qed.

Lemma anchor_line_splits_witness :
  re_match anchor_code_re escaped_line = Some [(1, "&lt;")] /\
  exists m2 tail,
    re_match anchor_prefix_re escaped_line = Some m2 /\
    escaped_line = group m2 1 ++ group [(1, "&lt;")] 1 ++ tail /\
    contains LF (group [(1, "&lt;")] 1) = false /\
    (tail = EmptyString \/ exists t', tail = String LF t').
Proof.
  assert (H : re_match anchor_code_re escaped_line = Some [(1, "&lt;")])
    by (vm_compute; reflexivity).
  split; [exact H|]. exact (anchor_line_splits escaped_line [(1, "&lt;")] H).
Defined.

(** ** The code buffer *)


Lemma split_nl_line (g rest : string) :
  contains LF g = false -> split_nl (g ++ String LF rest) = g :: split_nl rest.
Proof.
  induction g as [|c g IH]; intros H.
  - cbn [append split_nl]. now rewrite Ascii.eqb_refl.
  - simpl in H. apply orb_false_iff in H as [Hc H].
    change (String c g ++ String LF rest) with (String c (g ++ String LF rest)).
    cbn [split_nl]. now rewrite Hc, (IH H).
Qed.

Lemma split_nl_terminated (gs : list string) :
  Forall (fun g => contains LF g = false) gs ->
  split_nl (written (terminated gs)) = (gs ++ [EmptyString])%list.
Proof.
  induction 1 as [|g gs Hg _ IH]; [reflexivity|].
  unfold terminated in *. cbn [map]. rewrite written_cons, sapp_assoc.
  change (NL ++ written (map (fun g0 => g0 ++ NL) gs))
    with (String LF (written (map (fun g0 => g0 ++ NL) gs))).
  now rewrite (split_nl_line _ _ Hg), IH.
Qed.

Lemma collected_no_line_feed (lines : list string) :
  Forall (fun g => contains LF g = false) (collected lines).
Proof.
  induction lines as [|l lines IH]; [constructor|]. cbn [collected].
  destruct (re_match anchor_code_re l) as [m|] eqn:E; [|exact IH].
  constructor; [|exact IH].
  now destruct (anchor_line_parts l m E) as (_ & _ & _ & _ & Hg & _).
Qed.

Lemma collected_length (lines : list string) :
  List.length (collected lines) = code_anchors lines.
Proof.
  unfold code_anchors. induction lines as [|l lines IH]; [reflexivity|].
  cbn [collected filter]. unfold matches at 1.
  destruct (re_match anchor_code_re l); simpl; now rewrite IH.
Qed.

Lemma pass1_buffer (lines : list string) :
  forall st,
    code (snd (pass1 st lines)) = code st ++ written (terminated (collected lines)).
Proof.
  induction lines as [|l lines IH]; intros st.
  - simpl. now rewrite sapp_nil_r.
  - rewrite pass1_cons. cbn [snd]. rewrite IH, pass1_line_state. cbn [code collected].
    unfold collect. destruct (re_match anchor_code_re l) as [m|]; [|reflexivity].
    unfold terminated. cbn [map]. now rewrite written_cons, !sapp_assoc.
Qed.

(** The code handed to the highlighter is the code of the numbered lines
    read, in order, each followed by a line feed and none holding one:
    there is one such line for each anchor line, and split at line feeds
    the buffer gives these lines and the empty piece after the last. *)
Theorem code_buffer_has_a_line_per_anchor (lines : list string) :
  code (snd (pass1 p1_init lines)) = written (terminated (collected lines)) /\
  Forall (fun g => contains LF g = false) (collected lines) /\
  List.length (collected lines) = code_anchors lines /\
  split_nl (code (snd (pass1 p1_init lines))) = (collected lines ++ [EmptyString])%list.
Proof.
  assert (E : code (snd (pass1 p1_init lines)) = written (terminated (collected lines)))
    by (now rewrite pass1_buffer).
  split; [exact E|]. split; [apply collected_no_line_feed|].
  split; [apply collected_length|].
  rewrite E. apply split_nl_terminated, collected_no_line_feed.
Qed.

(* ================================================================= *)
(** * Further properties of the walk *)

Section WalkerMore.

Variable Lexer : Type.
Variable get_lexer : string -> option Lexer.
Variable highlight : string -> Lexer -> string.
Variable unescape : string -> string.

(** ** Statuses and diagnostics *)

Lemma rewrite_page_status (lexer : Lexer) (data : string) (r : Z) (data' : string) :
  rewrite_page Lexer highlight unescape lexer data = (Ret r, data') -> r = SUCCESS.
Proof.
  unfold rewrite_page. destruct (pass1 p1_init (readlines data)) as [ps st].
  destruct (pass2 _ _ 0) as [[ps2 j] [e|]]; [discriminate|]. now intros [= <- _].
Qed.

Lemma highlight_file_status (p : string) (c c' : content) (r : Z) (ds : list diag) :
  highlight_file Lexer get_lexer highlight unescape p c = (Ret r, c', ds) ->
  (r = SUCCESS /\ ds = []) \/ (r = FAILURE /\ ds = [FailedToOpen p]).
Proof.
  unfold highlight_file. destruct (get_lexer (removesuffix p ".html")) as [lexer|].
  - destruct c as [data| | |data].
    + destruct (rewrite_page Lexer highlight unescape lexer data) as [o data'] eqn:E.
      intros [= -> _ <-]. left. split; [|reflexivity]. now apply rewrite_page_status in E.
    + intros [= <- _ <-]. now right.
    + discriminate.
    + discriminate.
  - intros [= <- _ <-]. now left.
Qed.

Lemma accounted_app_r (r : Z) (ev1 ev2 : list event) :
  accounted r ev2 -> accounted r (ev1 ++ ev2).
Proof.
  intros [H|(H & p & H1 & H2)]; [now left|]. right. split; [assumption|].
  exists p. split; apply in_or_app; now right.
Qed.

Lemma accounted_app_l (r : Z) (ev1 ev2 : list event) :
  accounted r ev1 -> accounted r (ev1 ++ ev2).
Proof.
  intros [H|(H & p & H1 & H2)]; [now left|]. right. split; [assumption|].
  exists p. split; apply in_or_app; now left.
Qed.

Lemma loop_accounted (q : string) (listing : list (string * node))
    (recurse : string -> node -> outcome * node * list event) :
  forall rest,
    (forall i n r n' ev, In (i, n) rest ->
       recurse (join q i) n = (Ret r, n', ev) -> accounted r ev) ->
    forall retval r rest' ev,
      loop Lexer get_lexer highlight unescape q listing recurse retval rest
      = (Ret r, rest', ev) ->
      r = retval \/ accounted r ev.
Proof.
  induction rest as [|[i n] rest IH]; intros Hrec retval r rest' ev H.
  - simpl in H. injection H as <- _ _. now left.
  - assert (Hrec' : forall i n r n' ev, In (i, n) rest ->
                recurse (join q i) n = (Ret r, n', ev) -> accounted r ev).
    { intros * Hin. apply Hrec. now right. }
    cbn [loop] in H. destruct n as [c|sub].
    + destruct (isdir q listing (removesuffix (join q i) ".html")); cbn [negb] in H.
      * destruct (loop _ _ _ _ q listing recurse retval rest) as [[o2 r2] e2] eqn:E2.
        injection H as -> _ <-. now apply (IH Hrec' _ _ _ _ E2).
      * destruct (highlight_file _ _ _ _ (join q i) c) as [[o1 c1] ds] eqn:Eh.
        destruct o1 as [r1|]; [|discriminate].
        destruct (loop _ _ _ _ q listing recurse r1 rest) as [[o2 r2] e2] eqn:E2.
        injection H as -> _ <-. right.
        destruct (IH Hrec' _ _ _ _ E2) as [->|Ha].
        -- apply highlight_file_status in Eh as [[-> _]|[-> ->]]; [now left|].
           right. split; [reflexivity|]. exists (join q i). split; [now left|].
           right. now left.
        -- apply (accounted_app_r r (Call (join q i) :: map Stderr ds) e2 Ha).
    + destruct (recurse (join q i) (Dir sub)) as [[o1 n1] e1] eqn:Er.
      destruct o1 as [r1|]; [|discriminate].
      destruct (loop _ _ _ _ q listing recurse r1 rest) as [[o2 r2] e2] eqn:E2.
      injection H as -> _ <-. right.
      destruct (IH Hrec' _ _ _ _ E2) as [->|Ha].
      * apply accounted_app_l. apply (Hrec i (Dir sub) r1 n1 e1); [now left | assumption].
      * now apply accounted_app_r.
Qed.

Lemma traverse_accounted (d : node) :
  forall q r d' ev,
    traverse_repository Lexer get_lexer highlight unescape q d = (Ret r, d', ev) ->
    accounted r ev.
Proof.
  induction d as [c|es IH] using node_induction; intros q r d' ev H; [discriminate|].
  rewrite traverse_dir in H.
  destruct (loop _ _ _ _ q es _ SUCCESS es) as [[o1 es1] e1] eqn:E.
  injection H as -> _ <-.
  apply (accounted_app_r r [Walk q] e1).
  apply loop_accounted in E as [->|Ha]; [now left | assumption |].
  intros i n r1 n1 ev1 Hin Hw. rewrite Forall_forall in IH.
  exact (IH (i, n) Hin _ _ _ _ Hw).
Qed.

(** ** A walk that finds no lexer *)

Lemma loop_no_lexer (q : string) (listing : list (string * node))
    (recurse : string -> node -> outcome * node * list event) :
  (forall name, get_lexer name = None) ->
  forall rest,
    (forall i sub, In (i, Dir sub) rest ->
       exists ev, recurse (join q i) (Dir sub) = (Ret SUCCESS, Dir sub, ev)
                  /\ silent ev = true) ->
    exists ev,
      loop Lexer get_lexer highlight unescape q listing recurse SUCCESS rest
      = (Ret SUCCESS, rest, ev) /\ silent ev = true.
Proof.
  intros Hn. induction rest as [|[i n] rest IH]; intros Hrec.
  - now exists [].
  - destruct IH as (ev & E & Hs).
    { intros i0 sub0 Hin. apply Hrec. now right. }
    cbn [loop]. destruct n as [c|sub].
    + destruct (isdir q listing (removesuffix (join q i) ".html")); cbn [negb].
      * rewrite E. now exists ev.
      * unfold highlight_file. rewrite Hn, E. now exists (Call (join q i) :: ev).
    + destruct (Hrec i sub) as (e1 & -> & Hs1); [now left|].
      rewrite E. exists (e1 ++ ev)%list. split; [reflexivity|].
      unfold silent in *. now rewrite forallb_app, Hs1, Hs.
Qed.

Lemma traverse_no_lexer :
  (forall name, get_lexer name = None) ->
  forall d q,
    match d with
    | Dir es =>
        exists ev,
          traverse_repository Lexer get_lexer highlight unescape q d
          = (Ret SUCCESS, d, ev) /\ silent ev = true
    | File _ => True
    end.
Proof.
  intros Hn. induction d as [c|es IH] using node_induction; intros q; [exact I|].
  rewrite traverse_dir.
  destruct (loop_no_lexer q es (traverse_repository Lexer get_lexer highlight unescape) Hn es)
    as (ev & -> & Hs).
  - intros i sub Hin. rewrite Forall_forall in IH. exact (IH (i, Dir sub) Hin (join q i)).
  - now exists (Walk q :: ev).
Qed.

(** ** The shape of the tree *)






(** ** The last entry decides *)

Lemma loop_last_file (q : string) (listing : list (string * node))
    (recurse : string -> node -> outcome * node * list event)
    (i : string) (c : content) :
  isdir q listing (removesuffix (join q i) ".html") = false ->
  forall front retval r rest' ev,
    loop Lexer get_lexer highlight unescape q listing recurse retval
         (front ++ [(i, File c)])
    = (Ret r, rest', ev) ->
    fst (fst (highlight_file Lexer get_lexer highlight unescape (join q i) c)) = Ret r.
Proof.
  intros Hd. induction front as [|[i0 n0] front IH]; intros retval r rest' ev H.
  - cbn [app loop] in H. rewrite Hd in H. cbn [negb] in H.
    destruct (highlight_file _ _ _ _ (join q i) c) as [[o1 c1] ds].
    destruct o1 as [r1|]; [|discriminate]. simpl in H. now injection H as <- _ _.
  - rewrite <- app_comm_cons in H. cbn [loop] in H. destruct n0 as [c0|sub].
    + destruct (isdir q listing (removesuffix (join q i0) ".html")); cbn [negb] in H.
      * destruct (loop _ _ _ _ q listing recurse retval (front ++ [(i, File c)]))
          as [[o2 r2] e2] eqn:E2.
        injection H as -> _ _. exact (IH _ _ _ _ E2).
      * destruct (highlight_file _ _ _ _ (join q i0) c0) as [[o1 c1] ds].
        destruct o1 as [r1|]; [|discriminate].
        destruct (loop _ _ _ _ q listing recurse r1 (front ++ [(i, File c)]))
          as [[o2 r2] e2] eqn:E2.
        injection H as -> _ _. exact (IH _ _ _ _ E2).
    + destruct (recurse (join q i0) (Dir sub)) as [[o1 n1] e1].
      destruct o1 as [r1|]; [|discriminate].
      destruct (loop _ _ _ _ q listing recurse r1 (front ++ [(i, File c)]))
        as [[o2 r2] e2] eqn:E2.
      injection H as -> _ _. exact (IH _ _ _ _ E2).
Qed.

End WalkerMore.

(** ** The walk, as its caller sees it *)

(** A walk that returns, returns [SUCCESS] or [FAILURE]; and when it
    returns [FAILURE], [highlight_file] was called on some page whose
    failure to open was written to standard error. *)
Theorem walk_failure_is_reported
    (Lexer : Type) (get_lexer : string -> option Lexer)
    (highlight : string -> Lexer -> string) (unescape : string -> string)
    (pathname : string) (d d' : node) (r : Z) (ev : list event) :
  traverse_repository Lexer get_lexer highlight unescape pathname d = (Ret r, d', ev) ->
  r = SUCCESS \/
  (r = FAILURE /\ exists p, In (Call p) ev /\ In (Stderr (FailedToOpen p)) ev).
Proof. intros H. exact (traverse_accounted _ _ _ _ d _ _ _ _ H). Qed.

Lemma walk_failure_is_reported_witness :
  Sample.traverse_repository "root" tree_reported
  = (Ret FAILURE, tree_reported,
     [Walk "root"; Call "root/b.c.html"; Call "root/a.c.html";
      Stderr (FailedToOpen "root/a.c.html")]) /\
  (FAILURE = SUCCESS \/
   (FAILURE = FAILURE /\
    exists p,
      In (Call p) [Walk "root"; Call "root/b.c.html"; Call "root/a.c.html";
                   Stderr (FailedToOpen "root/a.c.html")] /\
      In (Stderr (FailedToOpen p))
         [Walk "root"; Call "root/b.c.html"; Call "root/a.c.html";
          Stderr (FailedToOpen "root/a.c.html")])).
Proof.
  assert (H : Sample.traverse_repository "root" tree_reported
              = (Ret FAILURE, tree_reported,
                 [Walk "root"; Call "root/b.c.html"; Call "root/a.c.html";
                  Stderr (FailedToOpen "root/a.c.html")]))
    by (vm_compute; reflexivity).
  split; [exact H|].
  exact (walk_failure_is_reported unit Sample.get_lexer Sample.highlight Sample.unescape
           "root" tree_reported tree_reported FAILURE _ H).
Defined.

(** When the lexer lookup recognises no name at all, the walk of a
    directory returns [SUCCESS], leaves every file of the tree as it was,
    those that cannot be read included, and writes nothing to standard
    error. *)
Theorem walk_without_lexer_changes_nothing
    (Lexer : Type) (get_lexer : string -> option Lexer)
    (highlight : string -> Lexer -> string) (unescape : string -> string)
    (pathname : string) (entries : list (string * node)) :
  (forall name, get_lexer name = None) ->
  exists ev,
    traverse_repository Lexer get_lexer highlight unescape pathname (Dir entries)
    = (Ret SUCCESS, Dir entries, ev) /\ silent ev = true.
Proof.
  intros H.
  exact (traverse_no_lexer Lexer get_lexer highlight unescape H (Dir entries) pathname).
Qed.

Lemma walk_without_lexer_changes_nothing_witness :
  (forall name, no_lexer name = None) /\
  exists ev,
    traverse_repository unit no_lexer Sample.highlight Sample.unescape "root"
      (Dir listing_undecodable)
    = (Ret SUCCESS, Dir listing_undecodable, ev) /\ silent ev = true.
Proof.
  split; [reflexivity|].
  apply (walk_without_lexer_changes_nothing unit no_lexer Sample.highlight Sample.unescape
           "root" listing_undecodable). reflexivity.
Defined.



(** When the last entry of a listing is a file that is no directory
    index, a walk that returns, returns what [highlight_file] returns for
    that file, whatever happened to the entries before it. *)
Theorem last_entry_decides
    (Lexer : Type) (get_lexer : string -> option Lexer)
    (highlight : string -> Lexer -> string) (unescape : string -> string)
    (pathname : string) (front : list (string * node)) (i : string) (c : content)
    (r : Z) (d' : node) (ev : list event) :
  isdir pathname (front ++ [(i, File c)]) (removesuffix (join pathname i) ".html") = false ->
  traverse_repository Lexer get_lexer highlight unescape pathname
    (Dir (front ++ [(i, File c)])) = (Ret r, d', ev) ->
  fst (fst (highlight_file Lexer get_lexer highlight unescape (join pathname i) c)) = Ret r.
Proof.
  intros Hd H. rewrite traverse_dir in H.
  destruct (loop _ _ _ _ pathname _ _ SUCCESS (front ++ [(i, File c)]))
    as [[o1 es1] e1] eqn:E.
  injection H as -> _ _.
  exact (loop_last_file _ _ _ _ _ _ _ i c Hd front _ _ _ _ E).
Qed.

Lemma last_entry_decides_witness :
  isdir "root" ([("a.c.html", File Unreadable)] ++ [("b.c.html", File (Readable EmptyString))])
        (removesuffix (join "root" "b.c.html") ".html") = false /\
  Sample.traverse_repository "root"
    (Dir ([("a.c.html", File Unreadable)] ++ [("b.c.html", File (Readable EmptyString))]))
  = (Ret SUCCESS, tree_masked,
     [Walk "root"; Call "root/a.c.html"; Stderr (FailedToOpen "root/a.c.html");
      Call "root/b.c.html"]) /\
  fst (fst (Sample.highlight_file (join "root" "b.c.html") (Readable EmptyString)))
  = Ret SUCCESS.
Proof.
  assert (Hd : isdir "root" ([("a.c.html", File Unreadable)]
                             ++ [("b.c.html", File (Readable EmptyString))])
                 (removesuffix (join "root" "b.c.html") ".html") = false) by reflexivity.
  assert (H : Sample.traverse_repository "root"
                (Dir ([("a.c.html", File Unreadable)]
                      ++ [("b.c.html", File (Readable EmptyString))]))
              = (Ret SUCCESS, tree_masked,
                 [Walk "root"; Call "root/a.c.html"; Stderr (FailedToOpen "root/a.c.html");
                  Call "root/b.c.html"])) by (vm_compute; reflexivity).
  split; [exact Hd|]. split; [exact H|].
  exact (last_entry_decides unit Sample.get_lexer Sample.highlight Sample.unescape
           "root" [("a.c.html", File Unreadable)] "b.c.html" (Readable EmptyString)
           SUCCESS tree_masked _ Hd H).
Defined.

(** [highlight_file] is only ever called on paths below the directory the
    walk was started on: each path begins with that directory and its
    slash. *)
Theorem calls_stay_below
    (Lexer : Type) (get_lexer : string -> option Lexer)
    (highlight : string -> Lexer -> string) (unescape : string -> string)
    (pathname : string) (d d' : node) (o : outcome) (ev : list event) (p : string) :
  valid_node d = true ->
  traverse_repository Lexer get_lexer highlight unescape pathname d = (o, d', ev) ->
  In (Call p) ev ->
  exists t, p = join pathname EmptyString ++ t.
Proof.
  intros Hv H Hp. exact (traverse_calls_below _ _ _ _ d Hv _ _ _ _ _ H Hp).
Qed.

Lemma calls_stay_below_witness :
  valid_node tree_index = true /\
  Sample.traverse_repository "root" tree_index
  = (Ret SUCCESS, tree_index,
     [Walk "root"; Walk "root/X"; Call "root/X/y.c.html"; Call "root/z.c.html"]) /\
  In (Call "root/X/y.c.html")
     [Walk "root"; Walk "root/X"; Call "root/X/y.c.html"; Call "root/z.c.html"] /\
  exists t, "root/X/y.c.html" = join "root" EmptyString ++ t.
Proof.
  assert (Hv : valid_node tree_index = true) by reflexivity.
  assert (H : Sample.traverse_repository "root" tree_index
              = (Ret SUCCESS, tree_index,
                 [Walk "root"; Walk "root/X"; Call "root/X/y.c.html"; Call "root/z.c.html"]))
    by (vm_compute; reflexivity).
  assert (Hp : In (Call "root/X/y.c.html")
                  [Walk "root"; Walk "root/X"; Call "root/X/y.c.html"; Call "root/z.c.html"])
    by (right; right; left; reflexivity).
  split; [exact Hv|]. split; [exact H|]. split; [exact Hp|].
  exact (calls_stay_below unit Sample.get_lexer Sample.highlight Sample.unescape
           "root" tree_index tree_index (Ret SUCCESS) _ "root/X/y.c.html" Hv H Hp).
Defined.

(** [main] refuses to walk unless it is given exactly one argument and
    that argument names a directory: otherwise it returns [FAILURE],
    writes one line to standard error, calls neither function and leaves
    the file system as it was. *)
Theorem main_refuses
    (Lexer : Type) (get_lexer : string -> option Lexer)
    (highlight : string -> Lexer -> string) (unescape : string -> string)
    (argv : list string) (root : option node) :
  List.length argv <> 2 \/ (forall es, root <> Some (Dir es)) ->
  exists d,
    main Lexer get_lexer highlight unescape argv root = (Ret FAILURE, root, [Stderr d]).
Proof.
  intros H. unfold main.
  destruct argv as [|a [|b [|c t]]]; try (now eexists).
  destruct root as [[c|es]|]; try (now eexists).
  destruct H as [H|H]; [now contradiction H | now contradiction (H es)].
Qed.

Lemma main_refuses_witness :
  (List.length ["stagit-highlight"; "root"] <> 2
   \/ (forall es, Some (File (Readable fixture_page)) <> Some (Dir es))) /\
  exists d,
    Sample.main ["stagit-highlight"; "root"] (Some (File (Readable fixture_page)))
    = (Ret FAILURE, Some (File (Readable fixture_page)), [Stderr d]).
Proof.
  assert (H : List.length ["stagit-highlight"; "root"] <> 2
              \/ (forall es, Some (File (Readable fixture_page)) <> Some (Dir es)))
    by (right; intros es; discriminate).
  split; [exact H|].
  exact (main_refuses unit Sample.get_lexer Sample.highlight Sample.unescape
           ["stagit-highlight"; "root"] (Some (File (Readable fixture_page))) H).
Defined.

(** ** What a walk leaves in the files *)

Lemma loop_rewrites_files
    (Lexer : Type) (get_lexer : string -> option Lexer)
    (highlight : string -> Lexer -> string) (unescape : string -> string)
    (q : string) (listing : list (string * node))
    (recurse : string -> node -> outcome * node * list event) :
  forall rest retval r rest' ev,
    loop Lexer get_lexer highlight unescape q listing recurse retval rest
    = (Ret r, rest', ev) ->
    forall k i c,
      nth_error rest k = Some (i, File c) ->
      nth_error rest' k
      = Some (i, File (if isdir q listing (removesuffix (join q i) ".html") then c
                       else snd (fst (highlight_file Lexer get_lexer highlight unescape
                                        (join q i) c)))).
Proof.
  induction rest as [|[i0 n0] rest IH]; intros retval r rest' ev H k i c Hk.
  - now destruct k.
  - cbn [loop] in H. destruct n0 as [c0|sub].
    + destruct (isdir q listing (removesuffix (join q i0) ".html")) eqn:Ed; cbn [negb] in H.
      * destruct (loop _ _ _ _ q listing recurse retval rest) as [[o2 r2] e2] eqn:E2.
        injection H as -> <- _. destruct k as [|k]; simpl in Hk |- *.
        -- injection Hk as <- <-. now rewrite Ed.
        -- exact (IH _ _ _ _ E2 k i c Hk).
      * destruct (highlight_file _ _ _ _ (join q i0) c0) as [[o1 c1] ds] eqn:Eh.
        destruct o1 as [r1|]; [|discriminate].
        destruct (loop _ _ _ _ q listing recurse r1 rest) as [[o2 r2] e2] eqn:E2.
        injection H as -> <- _. destruct k as [|k]; simpl in Hk |- *.
        -- injection Hk as <- <-. now rewrite Ed, Eh.
        -- exact (IH _ _ _ _ E2 k i c Hk).
    + destruct (recurse (join q i0) (Dir sub)) as [[o1 n1] e1].
      destruct o1 as [r1|]; [|discriminate].
      destruct (loop _ _ _ _ q listing recurse r1 rest) as [[o2 r2] e2] eqn:E2.
      injection H as -> <- _. destruct k as [|k]; simpl in Hk |- *; [discriminate|].
      exact (IH _ _ _ _ E2 k i c Hk).
Qed.

(** In a tree where no name ends in [.bak], so that the in-place loops
    remove nothing but their own backups: after a walk that returns,
    every file of the directory stands where it stood, under its name, a
    directory index exactly as it was, and any other file as
    [highlight_file], called on it alone, leaves it. *)
Theorem walk_rewrites_each_file
    (Lexer : Type) (get_lexer : string -> option Lexer)
    (highlight : string -> Lexer -> string) (unescape : string -> string)
    (pathname : string) (entries entries' : list (string * node))
    (r : Z) (ev : list event) (k : nat) (i : string) (c : content) :
  no_backup (Dir entries) = true ->
  traverse_repository Lexer get_lexer highlight unescape pathname (Dir entries)
  = (Ret r, Dir entries', ev) ->
  nth_error entries k = Some (i, File c) ->
  nth_error entries' k
  = Some (i, File (if isdir pathname entries (removesuffix (join pathname i) ".html")
                   then c
                   else snd (fst (highlight_file Lexer get_lexer highlight unescape
                                    (join pathname i) c)))).
Proof.
  intros _ H Hk. rewrite traverse_dir in H.
  destruct (loop _ _ _ _ pathname entries _ SUCCESS entries) as [[o1 es1] e1] eqn:E.
  injection H as -> <- _.
  exact (loop_rewrites_files _ _ _ _ _ _ _ _ _ _ _ _ E k i c Hk).
Qed.

Lemma walk_rewrites_each_file_witness :
  no_backup (Dir listing_page) = true /\
  Sample.traverse_repository "root" (Dir listing_page)
  = (Ret SUCCESS,
     Dir [("x.c.html",
           File (Readable (fixture_result "<span></span>int x = 1;" "int x = 2;")))],
     [Walk "root"; Call "root/x.c.html"]) /\
  nth_error listing_page 0 = Some ("x.c.html", File (Readable fixture_page)) /\
  nth_error [("x.c.html",
              File (Readable (fixture_result "<span></span>int x = 1;" "int x = 2;")))] 0
  = Some ("x.c.html",
          File (if isdir "root" listing_page (removesuffix (join "root" "x.c.html") ".html")
                then Readable fixture_page
                else snd (fst (highlight_file unit Sample.get_lexer Sample.highlight
                                 Sample.unescape (join "root" "x.c.html")
                                 (Readable fixture_page))))).
Proof.
  assert (H : Sample.traverse_repository "root" (Dir listing_page)
              = (Ret SUCCESS,
                 Dir [("x.c.html",
                       File (Readable (fixture_result "<span></span>int x = 1;"
                                         "int x = 2;")))],
                 [Walk "root"; Call "root/x.c.html"])) by (vm_compute; reflexivity).
  assert (Hk : nth_error listing_page 0 = Some ("x.c.html", File (Readable fixture_page)))
    by reflexivity.
  split; [reflexivity|]. split; [exact H|]. split; [exact Hk|].
  exact (walk_rewrites_each_file unit Sample.get_lexer Sample.highlight Sample.unescape
           "root" listing_page _ SUCCESS _ 0 "x.c.html" (Readable fixture_page)
           eq_refl H Hk).
Defined.

(** ** Pages with at most one anchor *)


